(** * Alias-aware directory copy: a shallow embedding of [copy_aliases.py]

    The program copies a directory tree and replaces every macOS alias file
    by the file or directory it points to.  Everything it learns about the
    machine comes from two external tools ([mdls] and [osascript]) and from
    the [os] / [shutil] modules; the embedding keeps those behind a
    [Platform] interface and translates the functions of the script itself
    one by one on top of it.

    Conventions of the model:
    - a Python [str] is a [string]; every character stands for one code
      point below 256 (Latin-1), code points above are not represented;
    - a Python [int] is a [Z];
    - a function that touches the outside world is a computation in the
      monad [M], which threads the world and an outcome that is either a
      value or a raised exception;
    - every process that is spawned, every write to the file system and every
      line printed is recorded, in order, in the [trace] of the world. *)

From Stdlib Require Import ZArith Lia Bool List Ascii String.
From stdpp Require Import base option list gmap strings.

Local Open Scope string_scope.
Local Open Scope Z_scope.

(** ** Python string primitives *)

Module pystr.

(** [str.isspace] for one code point of the Latin-1 range. *)
Definition isspace (c : ascii) : bool :=
  let n := N_of_ascii c in
  ((9 <=? n) && (n <=? 13) || (28 <=? n) && (n <=? 32)
   || (n =? 133) || (n =? 160))%N.

(** [str.lower] for one code point of the Latin-1 range. *)
Definition lower_char (c : ascii) : ascii :=
  let n := N_of_ascii c in
  if ((65 <=? n) && (n <=? 90)
      || (192 <=? n) && (n <=? 222) && negb (n =? 215))%N
  then ascii_of_N (n + 32) else c.

Fixpoint lower (s : string) : string :=
  match s with
  | EmptyString => EmptyString
  | String c r => String (lower_char c) (lower r)
  end.

Fixpoint lstrip (s : string) : string :=
  match s with
  | EmptyString => EmptyString
  | String c r => if isspace c then lstrip r else s
  end.

Fixpoint rstrip (s : string) : string :=
  match s with
  | EmptyString => EmptyString
  | String c r =>
      match rstrip r with
      | EmptyString => if isspace c then EmptyString else String c EmptyString
      | r' => String c r'
      end
  end.

(** [s.strip()] *)
Definition strip (s : string) : string := rstrip (lstrip s).

(** [s.rstrip(ch)] for a one-character argument. *)
Fixpoint rstrip_char (ch : ascii) (s : string) : string :=
  match s with
  | EmptyString => EmptyString
  | String c r =>
      match rstrip_char ch r with
      | EmptyString =>
          if Ascii.eqb c ch then EmptyString else String c EmptyString
      | r' => String c r'
      end
  end.

(** [s.endswith(suffix)]: some tail of [s] is [suffix]. *)
Fixpoint endswith (s suffix : string) : bool :=
  String.eqb s suffix ||
  match s with
  | EmptyString => false
  | String _ r => endswith r suffix
  end.

(** [s.startswith(prefix)] *)
Definition startswith (s pre : string) : bool := String.prefix pre s.

(** [s.rfind(ch)] for a one-character argument: the highest index holding
    [ch], or [-1].  [rfind_from i ch s] numbers the characters of [s] from
    [i]. *)
Fixpoint rfind_from (i : Z) (ch : ascii) (s : string) : Z :=
  match s with
  | EmptyString => -1
  | String c r =>
      let k := rfind_from (i + 1) ch r in
      if 0 <=? k then k else if Ascii.eqb c ch then i else -1
  end.

Definition rfind (s : string) (ch : ascii) : Z := rfind_from 0 ch s.

Definition len (s : string) : Z := Z.of_nat (String.length s).

(** A slice bound as Python clamps it: negative bounds count from the
    end. *)
Definition clamp (s : string) (i : Z) : nat :=
  Z.to_nat (if i <? 0 then Z.max 0 (len s + i) else Z.min i (len s)).

(** [s[:i]] *)
Definition slice_to (s : string) (i : Z) : string :=
  String.substring 0 (clamp s i) s.

(** [s[i:]] *)
Definition slice_from (s : string) (i : Z) : string :=
  String.substring (clamp s i) (String.length s - clamp s i) s.

(** [s[i:i+1]]: the one-character string at [i], or the empty string. *)
Definition char_at (s : string) (i : Z) : string :=
  if (0 <=? i) && (i <? len s)
  then String.substring (Z.to_nat i) 1 s else EmptyString.

(** [s.split(ch)] for a one-character separator. *)
Fixpoint split (ch : ascii) (s : string) : list string :=
  match s with
  | EmptyString => [EmptyString]
  | String c r =>
      if Ascii.eqb c ch then EmptyString :: split ch r
      else match split ch r with
           | h :: t => String c h :: t
           | [] => [String c EmptyString]
           end
  end.

(** [sep.join(parts)] *)
Definition join (sep : string) (parts : list string) : string :=
  String.concat sep parts.

(** [ch * n] *)
Fixpoint repeat_char (ch : ascii) (n : nat) : string :=
  match n with
  | O => EmptyString
  | S n' => String ch (repeat_char ch n')
  end.

(** The truth value of a string: the empty string is false. *)
Definition truthy (s : string) : bool := negb (String.eqb s EmptyString).

(** Python's order on lists of strings (lexicographic, strings compared
    by code points): [lt_list a b] is [a < b]. *)
Fixpoint lt_list (a b : list string) : bool :=
  match a, b with
  | [], [] => false
  | [], _ :: _ => true
  | _ :: _, [] => false
  | x :: a', y :: b' =>
      match String.compare x y with
      | Lt => true
      | Gt => false
      | Eq => lt_list a' b'
      end
  end.

End pystr.

(** ** [posixpath] *)

Module posixpath.

Definition sep : ascii := "/"%char.
Definition extsep : ascii := "."%char.

(** The scan of [genericpath._splitext] over the leading dots of the last
    component: [n] bounds the number of iterations. *)
Fixpoint splitext_scan (n : nat) (p : string) (filenameIndex dotIndex : Z)
  : string * string :=
  match n with
  | O => (p, EmptyString)
  | S n' =>
      if filenameIndex <? dotIndex then
        if negb (String.eqb (pystr.char_at p filenameIndex)
                            (String extsep EmptyString))
        then (pystr.slice_to p dotIndex, pystr.slice_from p dotIndex)
        else splitext_scan n' p (filenameIndex + 1) dotIndex
      else (p, EmptyString)
  end.

(** [os.path.splitext(p)] *)
Definition splitext (p : string) : string * string :=
  let sepIndex := pystr.rfind p sep in
  let dotIndex := pystr.rfind p extsep in
  if sepIndex <? dotIndex then
    let filenameIndex := sepIndex + 1 in
    splitext_scan (S (Z.to_nat (dotIndex - filenameIndex)))
                  p filenameIndex dotIndex
  else (p, EmptyString).

(** [os.path.dirname(p)] *)
Definition dirname (p : string) : string :=
  let i := pystr.rfind p sep + 1 in
  let head := pystr.slice_to p i in
  if pystr.truthy head
     && negb (String.eqb head (pystr.repeat_char sep (String.length head)))
  then pystr.rstrip_char sep head
  else head.

(** [os.path.basename(p)] *)
Definition basename (p : string) : string :=
  pystr.slice_from p (pystr.rfind p sep + 1).

(** [os.path.join(a, b)] *)
Definition join (a b : string) : string :=
  if pystr.startswith b (String sep EmptyString) then b
  else if negb (pystr.truthy a) || pystr.endswith a (String sep EmptyString)
       then a +:+ b
       else a +:+ String sep EmptyString +:+ b.

(** The components kept by [commonpath]: [[c for c in s if c and c != '.']] *)
Definition components (p : string) : list string :=
  List.filter (fun c => pystr.truthy c && negb (String.eqb c "."))
              (pystr.split sep p).

(** The loop of [commonpath]: the longest common prefix of [s1] and [s2].
    Python indexes [s2[i]] and relies on [s1 <= s2] to stay in range; a
    [s2] that ends first stops the prefix here. *)
Fixpoint common_prefix (s1 s2 : list string) : list string :=
  match s1, s2 with
  | c :: s1', c2 :: s2' =>
      if String.eqb c c2 then c :: common_prefix s1' s2' else []
  | _, _ => []
  end.

(** [os.path.commonpath([p1, p2])]; [None] stands for the [ValueError]
    raised when absolute and relative paths are mixed. *)
Definition commonpath (p1 p2 : string) : option string :=
  let abs1 := String.eqb (pystr.slice_to p1 1) (String sep EmptyString) in
  let abs2 := String.eqb (pystr.slice_to p2 1) (String sep EmptyString) in
  if negb (Bool.eqb abs1 abs2) then None
  else
    let c1 := components p1 in
    let c2 := components p2 in
    let s1 := if pystr.lt_list c2 c1 then c2 else c1 in
    let s2 := if pystr.lt_list c1 c2 then c2 else c1 in
    let common := common_prefix s1 s2 in
    let prefix := if abs1 then String sep EmptyString else EmptyString in
    Some (prefix +:+ pystr.join (String sep EmptyString) common).

End posixpath.

(** ** The world outside the script *)

(** What [subprocess.run] hands back; the script never reads [stderr]. *)
Record CompletedProcess := mkCompletedProcess {
  returncode : Z;
  stdout : string
}.

(** The result of [parse_args]. *)
Record Namespace := mkNamespace {
  source : string;
  destination : string;
  verbose : bool
}.

(** The exceptions that can cross the functions of the script. *)
Inductive exn :=
| ValueError (msg : string)
| FileNotFoundError (path : string)
| FileExistsError (path : string)
| NotADirectoryError (path : string)
| IsADirectoryError (path : string)
| SameFileError (src dst : string)
| SystemExit (code : Z)
| RecursionError.

Inductive result (A : Type) :=
| Ok (a : A)
| Raise (e : exn).
Arguments Ok {A} a.
Arguments Raise {A} e.

Inductive stream := Stdout | Stderr.

(** The observable actions of a run. *)
Inductive event :=
| EvRun (args : list string)
| EvMakedirs (path : string)
| EvCopy2 (src dst : string) (follow_symlinks : bool)
| EvPrint (to : stream) (text : string).

(** The services the script takes from the interpreter and the operating
    system, over a state [E] of the machine.  Every call of an external tool
    returns, and the tools only observe the machine: their answer may depend
    on its state and on everything the run did before (so an answer may
    change from one call to the next), but they do not write to it.
    [os_scandir] yields the entry names of a directory at once. *)
Class Platform (E : Type) := {
  sys_platform : E -> string;
  argparse_parse_args : E -> result Namespace;
  subprocess_run : list string -> E -> list event -> CompletedProcess;
  os_path_exists : string -> E -> bool;
  os_path_isdir : string -> E -> bool;
  os_path_islink : string -> E -> bool;
  os_path_abspath : string -> E -> string;
  os_path_realpath : string -> E -> string;
  os_makedirs : string -> E -> result unit * E;
  os_scandir : string -> E -> result (list string);
  shutil_copy2 : string -> string -> bool -> E -> result unit * E
}.

Record World (E : Type) := mkWorld {
  ext : E;
  trace : list event
}.
Arguments mkWorld {E} ext trace.
Arguments ext {E} w.
Arguments trace {E} w.

Definition log {E} (ev : event) (w : World E) : World E :=
  mkWorld (ext w) (trace w ++ [ev])%list.

(** ** The monad of the script: world passing with exceptions *)

Definition M (E A : Type) : Type := World E -> result A * World E.

Definition ret {E A} (a : A) : M E A := fun w => (Ok a, w).

Definition raise {E A} (e : exn) : M E A := fun w => (Raise e, w).

Definition bind {E A B} (c : M E A) (k : A -> M E B) : M E B :=
  fun w =>
    match c w with
    | (Ok a, w') => k a w'
    | (Raise e, w') => (Raise e, w')
    end.

Declare Scope py_scope.
Delimit Scope py_scope with py.
Notation "x <- c1 ;; c2" := (bind c1 (fun x => c2))
  (at level 100, c1 at next level, right associativity) : py_scope.
Notation "c1 ;; c2" := (bind c1 (fun _ => c2))
  (at level 100, right associativity) : py_scope.
Local Open Scope py_scope.

(** [for x in xs: body(x)] *)
Fixpoint for_each {E A} (xs : list A) (body : A -> M E unit) : M E unit :=
  match xs with
  | [] => ret tt
  | x :: xs' => body x ;; for_each xs' body
  end.

(** The double quote, for the texts that contain one. *)
Definition dquote : string := String "034"%char EmptyString.
Definition newline : string := String "010"%char EmptyString.

(** ** The script *)

Section Script.

Context {E : Type} `{Platform E}.

(** *** Primitives lifted into the monad *)

Definition query {A} (f : E -> A) : M E A := fun w => (Ok (f (ext w)), w).

Definition exists_ (path : string) : M E bool := query (os_path_exists path).
Definition isdir (path : string) : M E bool := query (os_path_isdir path).
Definition islink (path : string) : M E bool := query (os_path_islink path).
Definition abspath (path : string) : M E string := query (os_path_abspath path).
Definition realpath (path : string) : M E string := query (os_path_realpath path).

Definition scandir (path : string) : M E (list string) :=
  fun w => (os_scandir path (ext w), w).

Definition parse_args : M E Namespace :=
  fun w => (argparse_parse_args (ext w), w).

Definition makedirs (path : string) : M E unit :=
  fun w =>
    let '(r, e') := os_makedirs path (ext w) in
    (r, mkWorld e' (trace w ++ [EvMakedirs path])%list).

Definition copy2 (src dst : string) (follow_symlinks : bool) : M E unit :=
  fun w =>
    let '(r, e') := shutil_copy2 src dst follow_symlinks (ext w) in
    (r, mkWorld e' (trace w ++ [EvCopy2 src dst follow_symlinks])%list).

(** [print(text, file=to)] *)
Definition print (to : stream) (text : string) : M E unit :=
  fun w => (Ok tt, log (EvPrint to (text +:+ newline)) w).

(** *** Constants *)

Definition MDLS_BIN : string := "/usr/bin/mdls".
Definition OSASCRIPT_BIN : string := "/usr/bin/osascript".
Definition ALIAS_CONTENT_TYPE : string := "com.apple.alias-file".

Definition RESOLVE_ALIAS_SCRIPT : string :=
  "on run argv" +:+ newline +:+
  "    set theItem to POSIX file (item 1 of argv)" +:+ newline +:+
  "    tell application " +:+ dquote +:+ "Finder" +:+ dquote +:+ newline +:+
  "        set resolved to (original item of (theItem as alias)) as alias"
    +:+ newline +:+
  "        return POSIX path of resolved" +:+ newline +:+
  "    end tell" +:+ newline +:+
  "end run" +:+ newline.

(** *** Functions, in the order of the file *)

Definition run_cmd (args : list string) : M E CompletedProcess :=
  fun w => (Ok (subprocess_run args (ext w) (trace w)), log (EvRun args) w).

Definition run_osascript (script : string) (args : list string)
  : M E (option string) :=
  let cmd := ([OSASCRIPT_BIN; "-e"; script; "--"] ++ args)%list in
  result <- run_cmd cmd ;;
  if negb (returncode result =? 0) then ret None
  else ret (Some (pystr.strip (stdout result))).

Definition is_alias_file (path : string) : M E bool :=
  result <- run_cmd [MDLS_BIN; "-name"; "kMDItemContentType"; "-raw"; path] ;;
  if negb (returncode result =? 0) then ret false
  else ret (String.eqb (pystr.strip (stdout result)) ALIAS_CONTENT_TYPE).

Definition resolve_alias (path : string) : M E (option string) :=
  run_osascript RESOLVE_ALIAS_SCRIPT [path].

(** The body of [for _ in range(max_depth)] with [n] iterations left,
    followed by the [return current] after the loop. *)
Fixpoint resolve_alias_chain_loop (n : nat) (current : string)
  : M E (option string) :=
  match n with
  | O => ret (Some current)
  | S n' =>
      a <- is_alias_file current ;;
      if negb a then ret (Some current)
      else
        resolved <- resolve_alias current ;;
        match resolved with
        | None => ret None
        | Some r =>
            if negb (pystr.truthy r) then ret None
            else if String.eqb r current then ret (Some current)
            else resolve_alias_chain_loop n' r
        end
  end.

Definition resolve_alias_chain (path : string) (max_depth : Z)
  : M E (option string) :=
  resolve_alias_chain_loop (Z.to_nat max_depth) path.

(** The default of [max_depth]. *)
Definition default_max_depth : Z := 10.

Definition ensure_dir (path : string) : M E unit :=
  e <- exists_ path ;;
  if e then
    d <- isdir path ;;
    if negb d then
      raise (ValueError ("Destination exists and is not a directory: " +:+ path))
    else ret tt
  else makedirs path.

Definition copy_file (src_path dest_path : string) (follow_symlinks : bool)
  : M E unit :=
  let parent := posixpath.dirname dest_path in
  (if pystr.truthy parent then ensure_dir parent else ret tt) ;;
  copy2 src_path dest_path follow_symlinks.

Definition ensure_target_extension (dest_path target_path : string)
  : M E string :=
  d <- isdir target_path ;;
  if d then ret dest_path
  else
    let target_ext := snd (posixpath.splitext target_path) in
    if negb (pystr.truthy target_ext) then ret dest_path
    else if pystr.endswith (pystr.lower dest_path) (pystr.lower target_ext)
         then ret dest_path
         else ret (dest_path +:+ target_ext).

(** The three copy functions call each other; each is written over the
    [copy_item] it calls, and the knot is tied by [copy_item] below. *)
Section Recursion.

Variable copy_item_rec : string -> string -> bool -> M E unit.

Definition copy_directory_with (src_dir dest_dir : string) (verbose : bool)
  : M E unit :=
  ensure_dir dest_dir ;;
  entries <- scandir src_dir ;;
  for_each entries (fun name =>
    copy_item_rec (posixpath.join src_dir name)
                  (posixpath.join dest_dir name) verbose).

Definition copy_target_with (src_path dest_path : string) (verbose : bool)
  : M E unit :=
  a <- is_alias_file src_path ;;
  src_path <-
    (if a then
       resolved <- resolve_alias_chain src_path default_max_depth ;;
       match resolved with
       | Some r => if pystr.truthy r then ret r else ret src_path
       | None => ret src_path
       end
     else ret src_path) ;;
  d <- isdir src_path ;;
  if d then copy_directory_with src_path dest_path verbose
  else copy_file src_path dest_path true.

Definition copy_item_with (src_path dest_path : string) (verbose : bool)
  : M E unit :=
  a <- is_alias_file src_path ;;
  if a then
    target <- resolve_alias_chain src_path default_max_depth ;;
    match target with
    | Some t =>
        if pystr.truthy t then
          (if verbose
           then print Stdout ("alias: " +:+ src_path +:+ " -> " +:+ t)
           else ret tt) ;;
          dest_path <- ensure_target_extension dest_path t ;;
          copy_target_with t dest_path verbose
        else
          print Stderr ("warning: failed to resolve alias: " +:+ src_path) ;;
          copy_file src_path dest_path false
    | None =>
        print Stderr ("warning: failed to resolve alias: " +:+ src_path) ;;
        copy_file src_path dest_path false
    end
  else
    d <- isdir src_path ;;
    l <- islink src_path ;;
    if d && negb l then copy_directory_with src_path dest_path verbose
    else copy_file src_path dest_path false.

End Recursion.

(** [copy_item] with the interpreter's recursion limit: [fuel] nested calls
    of [copy_item] are allowed, one more raises [RecursionError]. *)
Fixpoint copy_item (fuel : nat) (src_path dest_path : string) (verbose : bool)
  : M E unit :=
  match fuel with
  | O => raise RecursionError
  | S fuel' => copy_item_with (copy_item fuel') src_path dest_path verbose
  end.

Definition copy_directory (fuel : nat) := copy_directory_with (copy_item fuel).

Definition copy_target (fuel : nat) := copy_target_with (copy_item fuel).

Definition main (fuel : nat) : M E Z :=
  plat <- query sys_platform ;;
  if negb (String.eqb plat "darwin") then
    print Stderr "error: this script only supports macOS" ;;
    ret 1
  else
    args <- parse_args ;;
    source <- abspath (source args) ;;
    destination <- abspath (destination args) ;;
    d <- isdir source ;;
    if negb d then
      print Stderr ("error: source is not a directory: " +:+ source) ;;
      ret 1
    else
      source_real <- realpath source ;;
      destination_real <- realpath destination ;;
      if String.eqb source_real destination_real then
        print Stderr "error: source and destination are the same directory" ;;
        ret 1
      else
        match posixpath.commonpath source_real destination_real with
        | None => raise (ValueError "Can't mix absolute and relative paths")
        | Some common =>
            if String.eqb common source_real then
              print Stderr "error: destination cannot be inside the source directory" ;;
              ret 1
            else
              ensure_dir destination ;;
              copy_directory fuel source destination (verbose args) ;;
              ret 0
        end.

End Script.

(** ** An in-memory machine

    A file system small enough to compute with: a finite map from path
    strings to nodes.  A file is named by the very string used to reach it
    (no normalisation of [a//b] or [a/./b]); a symbolic link holds the full
    path of its referent and is followed when it is the last component of a
    path, through at most [max_links] links.  File metadata is not
    represented.  The statements about what a copy leaves in the file
    system are made for the paths on which this lookup and the walk of the
    system calls agree ([placed], below).  The two external tools are a
    field of the machine, so a statement about every machine is a statement
    about every behaviour of the tools. *)

Module memfs.

Inductive node :=
| File (data : string)
| Dir
| Symlink (target : string).

Record machine := mkMachine {
  files : gmap string node;
  tools : list string -> gmap string node -> list event -> CompletedProcess;
  platform_name : string;
  argv : result Namespace
}.

Definition with_files (m : machine) (fs : gmap string node) : machine :=
  mkMachine fs (tools m) (platform_name m) (argv m).

Definition max_links : nat := 40.

(** [os.lstat]: the node at a path, links not followed.  The empty path
    names nothing. *)
Definition lstat (fs : gmap string node) (p : string) : option node :=
  if pystr.truthy p then fs !! p else None.

(** The path a chain of links leads to; [None] when the chain is longer
    than [n].  The path reached may name nothing. *)
Fixpoint follow (n : nat) (fs : gmap string node) (p : string)
  : option string :=
  match lstat fs p with
  | Some (Symlink t) =>
      match n with
      | O => None
      | S n' => follow n' fs t
      end
  | _ => Some p
  end.

(** [os.stat]: the node at a path, links followed. *)
Definition stat (fs : gmap string node) (p : string) : option node :=
  match follow max_links fs p with
  | Some q => lstat fs q
  | None => None
  end.

Definition exists_b (fs : gmap string node) (p : string) : bool :=
  match stat fs p with Some _ => true | None => false end.

Definition isdir_b (fs : gmap string node) (p : string) : bool :=
  match stat fs p with Some Dir => true | _ => false end.

Definition islink_b (fs : gmap string node) (p : string) : bool :=
  match lstat fs p with Some (Symlink _) => true | _ => false end.

(** The directory a new entry [p] is created in exists (the current
    directory, for a bare name, always does). *)
Definition parent_ok (fs : gmap string node) (p : string) : bool :=
  let d := posixpath.dirname p in
  negb (pystr.truthy d) || String.eqb d p || isdir_b fs d.

(** [os.mkdir] *)
Definition mkdir (p : string) (fs : gmap string node)
  : result unit * gmap string node :=
  if negb (pystr.truthy p) then (Raise (FileNotFoundError p), fs)
  else match lstat fs p with
       | Some _ => (Raise (FileExistsError p), fs)
       | None =>
           if parent_ok fs p then (Ok tt, <[p := Dir]> fs)
           else (Raise (FileNotFoundError p), fs)
       end.

(** [os.makedirs(name)]: the missing ancestors first, then [name]; [n]
    bounds the number of ancestors. *)
Fixpoint makedirs_fuel (n : nat) (name : string) (fs : gmap string node)
  : result unit * gmap string node :=
  match n with
  | O => mkdir name fs
  | S n' =>
      let head0 := posixpath.dirname name in
      let tail0 := posixpath.basename name in
      let head := if pystr.truthy tail0 then head0 else posixpath.dirname head0 in
      let tail := if pystr.truthy tail0 then tail0 else posixpath.basename head0 in
      if pystr.truthy head && pystr.truthy tail && negb (exists_b fs head) then
        match makedirs_fuel n' head fs with
        | (Raise (FileExistsError _), fs') | (Ok _, fs') =>
            if String.eqb tail "." then (Ok tt, fs') else mkdir name fs'
        | (Raise e, fs') => (Raise e, fs')
        end
      else mkdir name fs
  end.

Definition makedirs (name : string) (fs : gmap string node)
  : result unit * gmap string node :=
  makedirs_fuel (String.length name) name fs.

(** The entry names of a directory: the last components of the paths
    whose directory part is [d]. *)
Definition children (fs : gmap string node) (d : string) : list string :=
  omap (fun '(k, _) =>
          if String.eqb (posixpath.dirname k) d
             && pystr.truthy (posixpath.basename k)
             && pystr.truthy k
          then Some (posixpath.basename k) else None)
       (map_to_list fs).

Definition scandir (p : string) (fs : gmap string node)
  : result (list string) :=
  match follow max_links fs p with
  | Some q =>
      match lstat fs q with
      | Some Dir => Ok (children fs q)
      | Some _ => Raise (NotADirectoryError p)
      | None => Raise (FileNotFoundError p)
      end
  | None => Raise (FileNotFoundError p)
  end.

(** [os.path.samefile], [False] when either path names nothing. *)
Definition samefile (fs : gmap string node) (a b : string) : bool :=
  match follow max_links fs a, follow max_links fs b with
  | Some qa, Some qb =>
      match lstat fs qa, lstat fs qb with
      | Some _, Some _ => String.eqb qa qb
      | _, _ => false
      end
  | _, _ => false
  end.

(** [open(dst, 'wb')] followed by the write of [data]: a link at [dst] is
    written through. *)
Definition write_file (dst data : string) (fs : gmap string node)
  : result unit * gmap string node :=
  match follow max_links fs dst with
  | None => (Raise (FileNotFoundError dst), fs)
  | Some q =>
      if negb (pystr.truthy q) then (Raise (FileNotFoundError dst), fs)
      else match lstat fs q with
           | Some Dir => (Raise (IsADirectoryError dst), fs)
           | Some _ => (Ok tt, <[q := File data]> fs)
           | None =>
               if parent_ok fs q then (Ok tt, <[q := File data]> fs)
               else (Raise (FileNotFoundError dst), fs)
           end
  end.

(** [shutil.copyfile] *)
Definition copyfile (src dst : string) (follow_symlinks : bool)
           (fs : gmap string node) : result unit * gmap string node :=
  if samefile fs src dst then (Raise (SameFileError src dst), fs)
  else
    match (if follow_symlinks then None else lstat fs src) with
    | Some (Symlink t) =>
        (* os.symlink(os.readlink(src), dst) *)
        match lstat fs dst with
        | Some _ => (Raise (FileExistsError dst), fs)
        | None =>
            if pystr.truthy dst && parent_ok fs dst
            then (Ok tt, <[dst := Symlink t]> fs)
            else (Raise (FileNotFoundError dst), fs)
        end
    | _ =>
        match stat fs src with
        | None => (Raise (FileNotFoundError src), fs)
        | Some Dir => (Raise (IsADirectoryError src), fs)
        | Some (Symlink _) => (Raise (FileNotFoundError src), fs)
        | Some (File data) => write_file dst data fs
        end
    end.

(** [shutil.copy2]: into [dst] when [dst] is a directory. *)
Definition copy2 (src dst : string) (follow_symlinks : bool)
           (fs : gmap string node) : result unit * gmap string node :=
  let dst := if isdir_b fs dst
             then posixpath.join dst (posixpath.basename src) else dst in
  copyfile src dst follow_symlinks fs.

(** [..] cancels the component before it; at the root it is dropped. *)
Fixpoint collapse (stack : list string) (comps : list string) : list string :=
  match comps with
  | [] => rev stack
  | c :: comps' =>
      if String.eqb c ".." then collapse (tl stack) comps'
      else collapse (c :: stack) comps'
  end.

(** [os.path.abspath] of a process whose current directory is the root. *)
Definition abspath (p : string) : string :=
  "/" +:+ pystr.join "/" (collapse [] (posixpath.components p)).

(** [os.path.realpath], links followed at the last component. *)
Definition realpath (fs : gmap string node) (p : string) : string :=
  match follow max_links fs (abspath p) with
  | Some q => abspath q
  | None => abspath p
  end.

Definition lift_fs (f : gmap string node -> result unit * gmap string node)
           (m : machine) : result unit * machine :=
  let '(r, fs') := f (files m) in (r, with_files m fs').

#[global] Instance platform : Platform machine := {|
  sys_platform := platform_name;
  argparse_parse_args := argv;
  subprocess_run := fun args m tr => tools m args (files m) tr;
  os_path_exists := fun p m => exists_b (files m) p;
  os_path_isdir := fun p m => isdir_b (files m) p;
  os_path_islink := fun p m => islink_b (files m) p;
  os_path_abspath := fun p _ => abspath p;
  os_path_realpath := fun p m => realpath (files m) p;
  os_makedirs := fun p => lift_fs (makedirs p);
  os_scandir := fun p m => scandir p (files m);
  shutil_copy2 := fun s d f => lift_fs (copy2 s d f)
|}.

(** *** Paths with one spelling

    The operations above take a path letter by letter, where the system
    calls they stand for walk it component by component: [/a//b], [/a/./b]
    and [/a/b] name one file there, and so do [/l/b] and [/a/b] when [/l]
    is a link to [/a].  The two agree on a file system whose entries are
    all recorded under the one normal form of their name, for the paths
    that are in that normal form and lie in a directory that is an entry
    itself. *)

(** A component of a normal path: not empty, not [.] and not [..], and
    free of the null character, which no system call takes in a path. *)
Definition plain_name (c : string) : bool :=
  pystr.truthy c && negb (String.eqb c ".") && negb (String.eqb c "..")
  && forallb (fun ch => negb (Ascii.eqb ch Ascii.zero))
             (list_ascii_of_string c).

(** A path in normal form: the root, or a separator before each of one or
    more plain components and none at the end ([/a/b]; not [a/b], [//a],
    [/a//b], [/a/./b], [/a/../b] or [/a/]). *)
Definition normal (p : string) : bool :=
  match pystr.split posixpath.sep p with
  | EmptyString :: ((_ :: _) as comps) =>
      String.eqb p "/" || forallb plain_name comps
  | _ => false
  end.

Definition is_dir (nd : option node) : bool :=
  match nd with Some Dir => true | _ => false end.

(** Every entry is recorded under its normal name and in a directory that
    is an entry: nothing lies below a link, below a file or in a directory
    that is missing, and the root is a directory.  Each entry is a file of
    its own (there are no hard links). *)
Definition tidy (fs : gmap string node) : bool :=
  forallb (fun kv => normal kv.1 && is_dir (fs !! posixpath.dirname kv.1))
          (map_to_list fs).

(** No entry is named as [p] but for the case of its letters (the volumes
    of macOS do not tell such names apart, unless formatted to). *)
Definition sole_case (fs : gmap string node) (p : string) : bool :=
  forallb (fun kv => implb (String.eqb (pystr.lower kv.1) (pystr.lower p))
                           (String.eqb kv.1 p))
          (map_to_list fs).

(** [dst] is the one spelling of a place in the file system: the file
    system is tidy, [dst] is in normal form, its directory is an entry
    that is a directory itself, not a link to one, and no entry differs
    from [dst] by case only. *)
Definition placed (fs : gmap string node) (dst : string) : Prop :=
  tidy fs = true
  /\ normal dst = true
  /\ lstat fs (posixpath.dirname dst) = Some Dir
  /\ sole_case fs dst = true.

(** The destination of a copy can take a new entry: it is the one
    spelling of a place in the file system, and nothing is there. *)
Definition writable (fs : gmap string node) (dst : string) : Prop :=
  placed fs dst /\ lstat fs dst = None.

(** *** A Finder for examples

    [aliases] lists which paths are alias files and what each points to.
    [mdls] reports the alias type for them, [osascript] prints the target
    when the target exists and fails otherwise. *)

Fixpoint assoc (k : string) (l : list (string * string)) : option string :=
  match l with
  | [] => None
  | (k', v) :: l' => if String.eqb k k' then Some v else assoc k l'
  end.

Definition finder (aliases : list (string * string))
           (args : list string) (fs : gmap string node) (tr : list event)
  : CompletedProcess :=
  match args with
  | [bin; _; _; _; path] =>
      if String.eqb bin MDLS_BIN then
        match lstat fs path, assoc path aliases with
        | None, _ => mkCompletedProcess 1 ""
        | Some _, Some _ => mkCompletedProcess 0 ALIAS_CONTENT_TYPE
        | Some Dir, None => mkCompletedProcess 0 "public.folder"
        | Some (Symlink _), None => mkCompletedProcess 0 "public.symlink"
        | Some (File _), None => mkCompletedProcess 0 "public.data"
        end
      else if String.eqb bin OSASCRIPT_BIN then
        match lstat fs path, assoc path aliases with
        | Some _, Some t =>
            if exists_b fs t then mkCompletedProcess 0 (t +:+ newline)
            else mkCompletedProcess 1 ""
        | _, _ => mkCompletedProcess 1 ""
        end
      else mkCompletedProcess 127 ""
  | _ => mkCompletedProcess 127 ""
  end.

Definition mac (fs : gmap string node) (aliases : list (string * string))
           (args : Namespace) : machine :=
  mkMachine fs (finder aliases) "darwin" (Ok args).

Definition boot (m : machine) : World machine := mkWorld m [].

End memfs.

(** ** Vocabulary of the statements *)

(** Which events are runs of [mdls] (a classification of a path) and which
    are runs of [osascript] (one hop of resolution). *)
Definition is_probe (ev : event) : bool :=
  match ev with
  | EvRun (bin :: _) => String.eqb bin MDLS_BIN
  | _ => false
  end.

Definition is_resolve (ev : event) : bool :=
  match ev with
  | EvRun (bin :: _) => String.eqb bin OSASCRIPT_BIN
  | _ => false
  end.

Definition is_write (ev : event) : bool :=
  match ev with
  | EvMakedirs _ | EvCopy2 _ _ _ => true
  | _ => false
  end.

Definition count_probes (evs : list event) : nat :=
  List.length (List.filter is_probe evs).

Definition count_resolves (evs : list event) : nat :=
  List.length (List.filter is_resolve evs).

Definition is_print (ev : event) : bool :=
  match ev with EvPrint _ _ => true | _ => false end.

Definition is_run (ev : event) : bool :=
  match ev with EvRun _ => true | _ => false end.

(** The line [copy_item] prints on the error stream for an alias it cannot
    resolve, and the line it prints in verbose mode for one it can. *)
Definition warning (src_path : string) : event :=
  EvPrint Stderr (("warning: failed to resolve alias: " +:+ src_path) +:+ newline).

Definition alias_note (src_path target : string) : event :=
  EvPrint Stdout (("alias: " +:+ src_path +:+ " -> " +:+ target) +:+ newline).

(** The command lines of the two tools. *)
Definition mdls_cmd (path : string) : list string :=
  [MDLS_BIN; "-name"; "kMDItemContentType"; "-raw"; path].

Definition osascript_cmd (path : string) : list string :=
  [OSASCRIPT_BIN; "-e"; RESOLVE_ALIAS_SCRIPT; "--"; path].

(** The name [ensure_target_extension] gives, as a function of what
    [os.path.isdir] says about the target. *)
Definition extended_name (target_is_dir : bool) (dest_path target_path : string)
  : string :=
  let target_ext := snd (posixpath.splitext target_path) in
  if target_is_dir then dest_path
  else if String.eqb target_ext "" then dest_path
  else if pystr.endswith (pystr.lower dest_path) (pystr.lower target_ext)
       then dest_path
       else dest_path +:+ target_ext.

(** *** Paths as [os.path.realpath] returns them *)

Fixpoint has_char (ch : ascii) (s : string) : bool :=
  match s with
  | EmptyString => false
  | String c r => Ascii.eqb c ch || has_char ch r
  end.

(** A name of a directory entry: not empty, not [.], no separator. *)
Definition proper_component (c : string) : bool :=
  pystr.truthy c && negb (String.eqb c ".") && negb (has_char posixpath.sep c).

(** The absolute path made of the components [comps]. *)
Definition canonical (comps : list string) : string :=
  "/" +:+ pystr.join "/" comps.

(** [inner] is [outer] or lies below it. *)
Definition nested_inside (inner outer : string) : Prop :=
  exists comps extra,
    forallb proper_component (comps ++ extra)%list = true
    /\ outer = canonical comps
    /\ inner = canonical (comps ++ extra)%list.

Section Vocabulary.

Context {E : Type} `{Platform E}.

(** In the machine state [e], whatever the run did before, [a] is
    classified as an alias and one hop from [a] leads to [b]. *)
Definition alias_hop (e : E) (a b : string) : Prop :=
  forall tr,
    fst (is_alias_file a (mkWorld e tr)) = Ok true
    /\ fst (resolve_alias a (mkWorld e tr)) = Ok (Some b).

(** In the machine state [e], [a] is never classified as an alias. *)
Definition not_alias (e : E) (a : string) : Prop :=
  forall tr, fst (is_alias_file a (mkWorld e tr)) = Ok false.

(** [p 0 -> p 1 -> ... -> p n]: every path before the last is an alias and
    one hop from it leads to the next, which is not the empty path. *)
Definition alias_links (e : E) (p : nat -> string) (n : nat) : Prop :=
  forall i, (i < n)%nat -> alias_hop e (p i) (p (S i)) /\ p (S i) <> "".

(** The same, and no hop leads back to the path it starts from. *)
Definition alias_chain (e : E) (p : nat -> string) (n : nat) : Prop :=
  forall i, (i < n)%nat ->
    alias_hop e (p i) (p (S i)) /\ p (S i) <> "" /\ p (S i) <> p i.

End Vocabulary.

(** ** Vocabulary of the further properties *)

(** No white space at either end. *)
Definition trimmed (s : string) : Prop :=
  pystr.lstrip s = s /\ pystr.rstrip s = s.

(** The events a copy towards [dest] may leave: runs of the tools; the
    making of a directory at a path that extends [dest] or of the directory
    of such a path; copies to paths that extend [dest]; the alias note on the
    standard output in verbose mode only; the warning on the error stream. *)
Definition confined (dest : string) (verbose : bool) (ev : event) : Prop :=
  match ev with
  | EvRun _ => True
  | EvMakedirs p =>
      exists d, pystr.startswith d dest = true
                /\ (p = d \/ p = posixpath.dirname d)
  | EvCopy2 _ d _ => pystr.startswith d dest = true
  | EvPrint Stdout _ => verbose = true
  | EvPrint Stderr _ => exists src, ev = warning src
  end.

Section Outcomes.

Context {E : Type} `{Platform E}.

(** [c2] does what [c1] does whenever [c1] does not run into the
    recursion limit. *)
Definition within_limit {A} (c1 c2 : M E A) : Prop :=
  forall w r w', c1 w = (r, w') -> r <> Raise RecursionError -> c2 w = (r, w').

(** Every run of [c] adds to the trace only events that satisfy [P]. *)
Definition emits {A} (c : M E A) (P : event -> Prop) : Prop :=
  forall w r w', c w = (r, w') ->
    exists evs, trace w' = (trace w ++ evs)%list /\ Forall P evs.

(** The names [os.scandir] yields do not start with a separator. *)
Definition scandir_names_plain : Prop :=
  forall path (e : E) names,
    os_scandir path e = Ok names ->
    Forall (fun n => pystr.startswith n "/" = false) names.

End Outcomes.

(** ** Sample machines *)

Module samples.

Import memfs.

Definition no_args : Namespace := mkNamespace "/src" "/dst" false.

(** [/src/Doc.alias] points to the file [/Targets/report.pdf]. *)
Definition doc_files : gmap string node :=
  <["/" := Dir]> (<["/src" := Dir]> (<["/dst" := Dir]> (<["/Targets" := Dir]>
  (<["/src/Doc.alias" := File "alias-record"]>
  (<["/Targets/report.pdf" := File "%PDF-1.7"]> ∅))))).

Definition doc : machine :=
  mac doc_files [("/src/Doc.alias", "/Targets/report.pdf")] no_args.

(** The same tree with a link [/dst/T] to the directory of the target. *)
Definition shortcut : machine :=
  mac (<["/dst/T" := Symlink "/Targets"]> doc_files)
      [("/src/Doc.alias", "/Targets/report.pdf")] no_args.

(** The same tree when the volume of the target is not mounted. *)
Definition unmounted : machine :=
  mac (delete "/Targets/report.pdf" doc_files)
      [("/src/Doc.alias", "/Targets/report.pdf")] no_args.

(** [/src/Loop] is an alias of itself. *)
Definition selfref : machine :=
  mac (<["/" := Dir]> (<["/src" := Dir]> (<["/dst" := Dir]>
       (<["/src/Loop" := File "alias-record"]> ∅))))
      [("/src/Loop", "/src/Loop")] no_args.

(** [/A] and [/B] are aliases of each other. *)
Definition pingpong : machine :=
  mac (<["/" := Dir]> (<["/A" := File "a"]> (<["/B" := File "b"]> ∅)))
      [("/A", "/B"); ("/B", "/A")] no_args.

Definition pingpong_path (i : nat) : string :=
  if Nat.even i then "/A" else "/B".

(** A machine whose [osascript] exits with status zero and prints
    nothing. *)
Definition silent : machine :=
  mkMachine ∅ (fun _ _ _ => mkCompletedProcess 0 "") "darwin" (Ok no_args).

(** [/src/link] is a symbolic link to [/src/data.txt]; [/src/Pointer] is
    an alias of the link. *)
Definition linked : machine :=
  mac (<["/" := Dir]> (<["/src" := Dir]> (<["/dst" := Dir]>
       (<["/src/data.txt" := File "payload"]>
       (<["/src/link" := Symlink "/src/data.txt"]>
       (<["/src/Pointer" := File "alias-record"]> ∅))))))
      [("/src/Pointer", "/src/link")] no_args.

(** The destination lies inside the source, or is the source under
    another spelling. *)
Definition nested_dest : machine :=
  mac doc_files [] (mkNamespace "/src" "/src/sub/dir" true).

Definition same_dest : machine :=
  mac doc_files [] (mkNamespace "/src" "/Targets/../src/." false).

(** A source tree with a subdirectory, an alias of a folder, an alias of a
    file whose name already ends with the extension in capitals, and a
    symbolic link. *)
Definition tree : machine :=
  mac (<["/" := Dir]> (<["/src" := Dir]> (<["/src/sub" := Dir]>
       (<["/src/sub/a.txt" := File "A"]> (<["/Targets" := Dir]>
       (<["/src/Folder" := File "alias-record"]>
       (<["/src/Doc.PDF" := File "alias-record"]>
       (<["/Targets/report.pdf" := File "%PDF-1.7"]>
       (<["/src/ln" := Symlink "/Targets"]> ∅)))))))))
      [("/src/Folder", "/Targets"); ("/src/Doc.PDF", "/Targets/report.pdf")]
      (mkNamespace "/src" "/dst" false).

(** A machine that is not a Mac and whose arguments do not parse. *)
Definition linux : machine :=
  mkMachine doc_files (finder []) "linux" (Raise (SystemExit 2)).

(** Arguments with a source that does not exist, with a destination beside
    the source whose name starts like it, and with a destination that is a
    file. *)
Definition no_source : machine :=
  mac doc_files [] (mkNamespace "/nowhere" "/dst" false).

Definition sibling_dest : machine :=
  mac doc_files [] (mkNamespace "/src" "/src2" false).

Definition dest_is_file : machine :=
  mac doc_files [] (mkNamespace "/src" "/Targets/report.pdf" false).

(** The target of the alias has a name that ends in a space. *)
Definition trailing_space : machine :=
  mac (<["/Targets/notes " := File "notes"]> doc_files)
      [("/src/Doc.alias", "/Targets/notes ")] no_args.

(** A chain of twelve aliases; the eleventh path has an extension of its
    own. *)
Definition long_paths : list string :=
  ["/c/a00"; "/c/a01"; "/c/a02"; "/c/a03"; "/c/a04"; "/c/a05"; "/c/a06";
   "/c/a07"; "/c/a08"; "/c/a09"; "/c/a10.lnk"; "/c/a11"; "/T/final.txt"].

Definition long_path (i : nat) : string := nth i long_paths "/T/final.txt".

Definition long_chain : machine :=
  mac (foldr (fun q fs => <[q := File "alias-record"]> fs)
             (<["/" := Dir]> (<["/c" := Dir]> (<["/T" := Dir]> (<["/dst" := Dir]>
              (<["/T/final.txt" := File "FINAL"]> ∅)))))
             (take 12 long_paths))
      (zip (take 12 long_paths) (drop 1 long_paths)) no_args.

(** The tree of [tree] with a destination in which the name of the folder
    alias is taken by a file. *)
Definition blocked : machine :=
  mac (<["/dst" := Dir]> (<["/dst/Folder" := File "in the way"]> (files tree)))
      [("/src/Folder", "/Targets"); ("/src/Doc.PDF", "/Targets/report.pdf")]
      (mkNamespace "/src" "/dst" false).

End samples.

(** * Properties *)

(** ** The string and path primitives on sample inputs *)

Example splitext_pdf : posixpath.splitext "/Targets/report.pdf" = ("/Targets/report", ".pdf").
Proof. reflexivity. Qed.
Example splitext_hidden : posixpath.splitext "/home/u/.bashrc" = ("/home/u/.bashrc", "").
Proof. reflexivity. Qed.
Example splitext_dots : posixpath.splitext "a/..b.c" = ("a/..b", ".c").
Proof. reflexivity. Qed.
Example splitext_dir_dot : posixpath.splitext "a.d/file" = ("a.d/file", "").
Proof. reflexivity. Qed.
Example dirname_ex : posixpath.dirname "/dst/Doc.alias.pdf" = "/dst".
Proof. reflexivity. Qed.
Example dirname_root : posixpath.dirname "/x" = "/".
Proof. reflexivity. Qed.
Example dirname_rel : posixpath.dirname "x" = "".
Proof. reflexivity. Qed.
Example dirname_slashes : posixpath.dirname "a//b" = "a".
Proof. reflexivity. Qed.
Example basename_ex : posixpath.basename "/dst/Doc.alias.pdf" = "Doc.alias.pdf".
Proof. reflexivity. Qed.
Example join_ex : posixpath.join "/dst" "Doc.alias" = "/dst/Doc.alias".
Proof. reflexivity. Qed.
Example join_slash : posixpath.join "/dst/" "Doc.alias" = "/dst/Doc.alias".
Proof. reflexivity. Qed.
Example commonpath_ex : posixpath.commonpath "/a/b" "/a/b/c" = Some "/a/b".
Proof. reflexivity. Qed.
Example commonpath_ex2 : posixpath.commonpath "/a/bc" "/a/b" = Some "/a".
Proof. reflexivity. Qed.
Example commonpath_root : posixpath.commonpath "/" "/a" = Some "/".
Proof. reflexivity. Qed.
Example strip_ex : pystr.strip "  /a b/c
" = "/a b/c".
Proof. reflexivity. Qed.
Example lower_ex : pystr.lower "Doc.PDF" = "doc.pdf".
Proof. reflexivity. Qed.
Example endswith_ex : pystr.endswith "doc.pdf" ".pdf" = true.
Proof. reflexivity. Qed.


(** ** Strings *)

Lemma truthy_true_iff s : pystr.truthy s = true <-> s <> "".
Proof.
  unfold pystr.truthy. destruct (String.eqb_spec s ""); simpl; split; intros; congruence.
Qed.

Lemma truthy_false_iff s : pystr.truthy s = false <-> s = "".
Proof.
  unfold pystr.truthy. destruct (String.eqb_spec s ""); simpl; split; intros; congruence.
Qed.

Lemma endswith_refl s : pystr.endswith s s = true.
Proof. destruct s; cbn [pystr.endswith]; now rewrite String.eqb_refl. Qed.

Lemma endswith_app a b : pystr.endswith (a +:+ b) b = true.
Proof.
  induction a as [|c a IH].
  - apply endswith_refl.
  - change (String c a +:+ b) with (String c (a +:+ b)).
    cbn [pystr.endswith]. rewrite IH. apply orb_true_r.
Qed.

Lemma endswith_iff s suffix :
  pystr.endswith s suffix = true <-> exists pre, s = pre +:+ suffix.
Proof.
  split.
  - induction s as [|c s IH]; cbn [pystr.endswith]; intros Hs.
    + rewrite orb_false_r in Hs. apply String.eqb_eq in Hs. subst. now exists "".
    + apply orb_true_iff in Hs as [Hs|Hs].
      * apply String.eqb_eq in Hs. subst. now exists "".
      * destruct (IH Hs) as [pre ->]. now exists (String c pre).
  - intros [pre ->]. apply endswith_app.
Qed.

Lemma lower_app a b : pystr.lower (a +:+ b) = pystr.lower a +:+ pystr.lower b.
Proof. induction a as [|c a IH]; simpl; [reflexivity | now rewrite IH]. Qed.

(** ** Paths *)

Lemma string_compare_refl s : String.compare s s = Eq.
Proof.
  pose proof (String.compare_antisym s s) as Hs.
  destruct (String.compare s s); simpl in Hs; congruence.
Qed.

Lemma lt_list_app_l cs extra : pystr.lt_list (cs ++ extra) cs = false.
Proof.
  induction cs as [|c cs IH]; cbn [app pystr.lt_list].
  - now destruct extra.
  - now rewrite string_compare_refl.
Qed.

Lemma common_prefix_app cs extra : posixpath.common_prefix cs (cs ++ extra) = cs.
Proof.
  induction cs as [|c cs IH]; cbn [app posixpath.common_prefix]; [reflexivity|].
  now rewrite String.eqb_refl, IH.
Qed.

Lemma common_prefix_refl cs : posixpath.common_prefix cs cs = cs.
Proof. rewrite <- (app_nil_r cs) at 2. apply common_prefix_app. Qed.

Lemma split_nonempty ch s : pystr.split ch s <> [].
Proof.
  destruct s as [|c s]; cbn [pystr.split]; [discriminate|].
  destruct (Ascii.eqb c ch); [discriminate|].
  destruct (pystr.split ch s); discriminate.
Qed.

Lemma split_no_sep ch c : has_char ch c = false -> pystr.split ch c = [c].
Proof.
  induction c as [|a c IH]; cbn [has_char pystr.split]; [reflexivity|].
  intros [Ha Hc]%orb_false_iff. rewrite Ha, (IH Hc). reflexivity.
Qed.

Lemma split_app_sep ch c r :
  has_char ch c = false ->
  pystr.split ch (c +:+ String ch r) = c :: pystr.split ch r.
Proof.
  induction c as [|a c IH]; intros Hc.
  - change ("" +:+ String ch r) with (String ch r).
    cbn [pystr.split]. now rewrite Ascii.eqb_refl.
  - cbn [has_char] in Hc. apply orb_false_iff in Hc as [Ha Hc].
    change (String a c +:+ String ch r) with (String a (c +:+ String ch r)).
    cbn [pystr.split]. rewrite Ha, (IH Hc). reflexivity.
Qed.

Lemma proper_component_no_sep c :
  proper_component c = true -> has_char posixpath.sep c = false.
Proof.
  unfold proper_component. intros [_ Hc]%andb_true_iff.
  now apply negb_true_iff in Hc.
Qed.

Lemma split_join cs :
  cs <> [] ->
  forallb proper_component cs = true ->
  pystr.split posixpath.sep (pystr.join "/" cs) = cs.
Proof.
  unfold pystr.join.
  induction cs as [|c cs IH]; [congruence|]. intros _.
  cbn [forallb]. intros [Hc Hcs]%andb_true_iff.
  apply proper_component_no_sep in Hc.
  destruct cs as [|c' cs].
  - cbn [String.concat]. now apply split_no_sep.
  - change (String.concat "/" (c :: c' :: cs))
      with (c +:+ String posixpath.sep (String.concat "/" (c' :: cs))).
    rewrite (split_app_sep _ _ _ Hc), IH; [reflexivity | discriminate | exact Hcs].
Qed.

Lemma filter_proper cs :
  forallb proper_component cs = true ->
  List.filter (fun c => pystr.truthy c && negb (String.eqb c ".")) cs = cs.
Proof.
  induction cs as [|c cs IH]; [reflexivity|].
  cbn [forallb List.filter]. intros [Hc Hcs]%andb_true_iff.
  unfold proper_component in Hc. apply andb_true_iff in Hc as [Hc _].
  now rewrite Hc, (IH Hcs).
Qed.

Lemma components_canonical cs :
  forallb proper_component cs = true ->
  posixpath.components (canonical cs) = cs.
Proof.
  intros Hcs. unfold posixpath.components, canonical.
  change ("/" +:+ pystr.join "/" cs) with (String posixpath.sep (pystr.join "/" cs)).
  cbn [pystr.split]. rewrite Ascii.eqb_refl.
  destruct cs as [|c cs]; [reflexivity|].
  rewrite split_join by (discriminate || assumption).
  etransitivity; [|apply (filter_proper _ Hcs)]. reflexivity.
Qed.

Lemma slice_to_1_canonical cs : pystr.slice_to (canonical cs) 1 = "/".
Proof.
  unfold canonical, pystr.slice_to, pystr.clamp, pystr.len.
  change ("/" +:+ pystr.join "/" cs) with (String "/" (pystr.join "/" cs)).
  cbn [String.length]. rewrite Z.min_l by lia.
  change (Z.to_nat (if 1 <? 0 then Z.max 0 (Z.of_nat (S (String.length (pystr.join "/" cs))) + 1) else 1)) with 1%nat.
  cbn [String.substring]. now destruct (pystr.join "/" cs).
Qed.

Lemma commonpath_nested cs extra :
  forallb proper_component (cs ++ extra) = true ->
  posixpath.commonpath (canonical cs) (canonical (cs ++ extra))
  = Some (canonical cs).
Proof.
  intros Hall. assert (Hcs := Hall). rewrite forallb_app in Hcs.
  apply andb_true_iff in Hcs as [Hcs _].
  unfold posixpath.commonpath. rewrite !slice_to_1_canonical.
  rewrite String.eqb_refl. cbn [Bool.eqb negb].
  rewrite (components_canonical _ Hcs), (components_canonical _ Hall).
  rewrite lt_list_app_l.
  destruct (pystr.lt_list cs (cs ++ extra));
    now rewrite ?common_prefix_app, ?common_prefix_refl.
Qed.

(** ** The monad *)

Section Properties.

Context {E : Type} `{Platform E}.

Lemma bind_ok {A B} (c : M E A) (k : A -> M E B) w a w' :
  c w = (Ok a, w') -> bind c k w = k a w'.
Proof. unfold bind. now intros ->. Qed.

Lemma bind_raise {A B} (c : M E A) (k : A -> M E B) w e w' :
  c w = (Raise e, w') -> bind c k w = (Raise e, w').
Proof. unfold bind. now intros ->. Qed.

Lemma bind_ret {A B} (a : A) (k : A -> M E B) w : bind (ret a) k w = k a w.
Proof. reflexivity. Qed.

(** ** The two tools *)

Lemma run_cmd_eq args (w : World E) :
  run_cmd args w = (Ok (subprocess_run args (ext w) (trace w)), log (EvRun args) w).
Proof. reflexivity. Qed.

Lemma is_alias_file_eq path (w : World E) :
  is_alias_file path w =
  (Ok (let r := subprocess_run (mdls_cmd path) (ext w) (trace w) in
       (returncode r =? 0)
       && String.eqb (pystr.strip (stdout r)) ALIAS_CONTENT_TYPE),
   log (EvRun (mdls_cmd path)) w).
Proof.
  unfold is_alias_file, bind. rewrite run_cmd_eq. fold (mdls_cmd path).
  cbv zeta. destruct (returncode _ =? 0); reflexivity.
Qed.

Lemma resolve_alias_eq path (w : World E) :
  resolve_alias path w =
  (Ok (let r := subprocess_run (osascript_cmd path) (ext w) (trace w) in
       if returncode r =? 0 then Some (pystr.strip (stdout r)) else None),
   log (EvRun (osascript_cmd path)) w).
Proof.
  unfold resolve_alias, run_osascript, bind. simpl app.
  rewrite run_cmd_eq. fold (osascript_cmd path).
  cbv zeta. destruct (returncode _ =? 0); reflexivity.
Qed.

(** ** [ensure_target_extension] *)

Lemma ensure_target_extension_eq dest target (w : World E) :
  ensure_target_extension dest target w =
  (Ok (extended_name (os_path_isdir target (ext w)) dest target), w).
Proof.
  unfold ensure_target_extension, extended_name, bind, isdir, query.
  destruct (os_path_isdir target (ext w)); [reflexivity|].
  unfold pystr.truthy. rewrite negb_involutive.
  destruct (String.eqb _ ""); [reflexivity|].
  destruct (pystr.endswith _ _); reflexivity.
Qed.

Lemma extended_name_idem d dest target :
  extended_name d (extended_name d dest target) target
  = extended_name d dest target.
Proof.
  unfold extended_name. destruct d; [reflexivity|].
  destruct (String.eqb _ "") eqn:He; [reflexivity|].
  destruct (pystr.endswith (pystr.lower dest) _) eqn:Hs.
  - now rewrite Hs.
  - now rewrite lower_app, endswith_app.
Qed.

(** C4.  The name chosen for a copied alias: the destination as it is when
    the target is a directory, when the target has no extension, or when
    the destination already ends with the extension (letter case ignored);
    the destination followed by the extension otherwise.  Naming the
    result again changes nothing, so an extension is never appended
    twice.  The world is only read. *)
Theorem ensure_target_extension_spec dest target (w : World E) :
  let ext_ := snd (posixpath.splitext target) in
  exists name,
    ensure_target_extension dest target w = (Ok name, w)
    /\ (os_path_isdir target (ext w) = true -> name = dest)
    /\ (ext_ = "" -> name = dest)
    /\ ((exists pre, pystr.lower dest = pre +:+ pystr.lower ext_) -> name = dest)
    /\ (os_path_isdir target (ext w) = false -> ext_ <> "" ->
        (~ exists pre, pystr.lower dest = pre +:+ pystr.lower ext_) ->
        name = dest +:+ ext_)
    /\ ensure_target_extension name target w = (Ok name, w).
Proof.
  intros ext_. exists (extended_name (os_path_isdir target (ext w)) dest target).
  split; [apply ensure_target_extension_eq|].
  repeat split.
  - intros ->. reflexivity.
  - intros He. unfold extended_name. fold ext_. rewrite He.
    destruct (os_path_isdir _ _); reflexivity.
  - intros Hp. apply endswith_iff in Hp. unfold extended_name. fold ext_.
    rewrite Hp. destruct (os_path_isdir _ _), (String.eqb ext_ ""); reflexivity.
  - intros Hd He Hn. unfold extended_name. fold ext_. rewrite Hd.
    apply String.eqb_neq in He. rewrite He.
    destruct (pystr.endswith _ _) eqn:Hs; [|reflexivity].
    apply endswith_iff in Hs. contradiction.
  - rewrite ensure_target_extension_eq. now rewrite extended_name_idem.
Qed.

(** ** One hop *)

(** C7 (as the script has it).  [resolve_alias] returns [None] exactly
    when [osascript] exits with a status other than zero.  With status
    zero it returns the output without the surrounding white space, also
    when nothing is left of it: an empty output gives the empty string,
    not [None]. *)
Theorem resolve_alias_none_iff_nonzero_exit path (w : World E) :
  let cp := subprocess_run (osascript_cmd path) (ext w) (trace w) in
  (fst (resolve_alias path w) = Ok None <-> returncode cp <> 0)
  /\ (returncode cp = 0 ->
      fst (resolve_alias path w) = Ok (Some (pystr.strip (stdout cp)))).
Proof.
  intros cp. rewrite resolve_alias_eq. cbv zeta. fold cp. cbn [fst].
  destruct (Z.eqb_spec (returncode cp) 0) as [Hz|Hz]; split.
  - split; [discriminate | intros Hn; contradiction].
  - reflexivity.
  - split; [intros _; exact Hz | reflexivity].
  - intros Hz'. contradiction.
Qed.

(** ** The chain *)

Lemma resolve_alias_chain_unfold path max_depth :
  0 < max_depth ->
  resolve_alias_chain path max_depth =
  (a <- is_alias_file path ;;
   if negb a then ret (Some path)
   else
     resolved <- resolve_alias path ;;
     match resolved with
     | None => ret None
     | Some r =>
         if negb (pystr.truthy r) then ret None
         else if String.eqb r path then ret (Some path)
         else resolve_alias_chain r (max_depth - 1)
     end).
Proof.
  intros Hpos. unfold resolve_alias_chain.
  replace (Z.to_nat max_depth) with (S (Z.to_nat (max_depth - 1))) by lia.
  reflexivity.
Qed.

(** C2.  One turn of the loop of [resolve_alias_chain], for any answer of
    the probe and of the one-hop resolver: a path that is not an alias is
    returned; a failed hop (no result, or an empty one) gives [None]; a hop
    that leads back to the same path returns that path; any other hop
    continues from the path it leads to, with one turn less. *)
Theorem resolve_alias_chain_early_exits path max_depth (w : World E) :
  0 < max_depth ->
  exists a w1,
    is_alias_file path w = (Ok a, w1)
    /\ if negb a
       then resolve_alias_chain path max_depth w = (Ok (Some path), w1)
       else exists r w2,
           resolve_alias path w1 = (Ok r, w2)
           /\ match r with
              | None => resolve_alias_chain path max_depth w = (Ok None, w2)
              | Some q =>
                  if String.eqb q "" then
                    resolve_alias_chain path max_depth w = (Ok None, w2)
                  else if String.eqb q path then
                    resolve_alias_chain path max_depth w = (Ok (Some path), w2)
                  else
                    resolve_alias_chain path max_depth w
                    = resolve_alias_chain q (max_depth - 1) w2
              end.
Proof.
  intros Hpos. rewrite (resolve_alias_chain_unfold _ _ Hpos).
  rewrite is_alias_file_eq. eexists _, _. split; [reflexivity|].
  erewrite bind_ok by apply is_alias_file_eq.
  destruct (negb _); [reflexivity|].
  rewrite resolve_alias_eq. eexists _, _. split; [reflexivity|].
  erewrite bind_ok by apply resolve_alias_eq.
  match goal with |- match ?r with _ => _ end => destruct r as [q|] end;
    [|reflexivity].
  unfold pystr.truthy. rewrite negb_involutive.
  destruct (String.eqb q ""); [reflexivity|].
  destruct (String.eqb q path); reflexivity.
Qed.

Lemma count_probes_app a b :
  count_probes (a ++ b) = (count_probes a + count_probes b)%nat.
Proof. unfold count_probes. now rewrite List.filter_app, List.length_app. Qed.

Lemma count_resolves_app a b :
  count_resolves (a ++ b) = (count_resolves a + count_resolves b)%nat.
Proof. unfold count_resolves. now rewrite List.filter_app, List.length_app. Qed.

Lemma count_probes_hop path :
  count_probes [EvRun (mdls_cmd path); EvRun (osascript_cmd path)] = 1%nat
  /\ count_resolves [EvRun (mdls_cmd path); EvRun (osascript_cmd path)] = 1%nat.
Proof. split; reflexivity. Qed.

Lemma world_eta (w : World E) : mkWorld (ext w) (trace w) = w.
Proof. now destruct w. Qed.

Lemma is_alias_file_fst path (w : World E) a :
  fst (is_alias_file path w) = Ok a ->
  is_alias_file path w = (Ok a, log (EvRun (mdls_cmd path)) w).
Proof. rewrite is_alias_file_eq. cbn [fst]. intros Hx. now rewrite Hx. Qed.

Lemma resolve_alias_fst path (w : World E) r :
  fst (resolve_alias path w) = Ok r ->
  resolve_alias path w = (Ok r, log (EvRun (osascript_cmd path)) w).
Proof. rewrite resolve_alias_eq. cbn [fst]. intros Hx. now rewrite Hx. Qed.

Lemma resolve_alias_chain_loop_bounded n :
  forall path (w : World E),
  exists r evs,
    resolve_alias_chain_loop n path w
    = (Ok r, mkWorld (ext w) (trace w ++ evs))
    /\ (count_probes evs <= n)%nat
    /\ (count_resolves evs <= count_probes evs)%nat
    /\ List.length evs = (count_probes evs + count_resolves evs)%nat.
Proof.
  induction n as [|n IH]; intros path w.
  - exists (Some path), []. rewrite app_nil_r, world_eta. repeat split; auto.
  - cbn [resolve_alias_chain_loop].
    erewrite bind_ok by apply is_alias_file_eq.
    destruct (negb _).
    { exists (Some path), [EvRun (mdls_cmd path)].
      repeat split; cbn; lia. }
    erewrite bind_ok by apply resolve_alias_eq.
    assert (Hstop : forall r : option string,
      exists r' evs,
        (Ok r, log (EvRun (osascript_cmd path)) (log (EvRun (mdls_cmd path)) w))
        = (Ok r', mkWorld (ext w) (trace w ++ evs))
        /\ (count_probes evs <= S n)%nat
        /\ (count_resolves evs <= count_probes evs)%nat
        /\ List.length evs = (count_probes evs + count_resolves evs)%nat).
    { intros r. exists r, [EvRun (mdls_cmd path); EvRun (osascript_cmd path)].
      unfold log. cbn [ext trace]. rewrite <- app_assoc.
      repeat split; cbn; lia. }
    match goal with |- context [match ?r with _ => _ end] => destruct r as [q|] end;
      [|apply Hstop].
    destruct (negb (pystr.truthy q)); [apply Hstop|].
    destruct (String.eqb q path); [apply Hstop|].
    destruct (IH q (log (EvRun (osascript_cmd path)) (log (EvRun (mdls_cmd path)) w)))
      as (r & evs & Heq & Hp & Hr & Hl).
    exists r, ([EvRun (mdls_cmd path); EvRun (osascript_cmd path)] ++ evs)%list.
    rewrite Heq. unfold log. cbn [ext trace].
    rewrite <- !app_assoc. split; [reflexivity|].
    rewrite count_probes_app, count_resolves_app, List.length_app.
    destruct (count_probes_hop path) as [-> ->]. cbn [List.length]. lia.
Qed.

Lemma resolve_alias_chain_loop_exhausted n :
  forall (p : nat -> string) j e tr,
    (forall i, (j <= i < j + n)%nat ->
       alias_hop e (p i) (p (S i)) /\ p (S i) <> "" /\ p (S i) <> p i) ->
    exists evs,
      resolve_alias_chain_loop n (p j) (mkWorld e tr)
      = (Ok (Some (p (j + n)%nat)), mkWorld e (tr ++ evs))
      /\ count_probes evs = n /\ count_resolves evs = n
      /\ List.length evs = (2 * n)%nat.
Proof.
  induction n as [|n IH]; intros p j e tr Hch.
  - exists []. rewrite app_nil_r, Nat.add_0_r. repeat split; auto.
  - destruct (Hch j ltac:(lia)) as (Hhop & Hne & Hdiff).
    cbn [resolve_alias_chain_loop].
    destruct (Hhop tr) as [Ha _].
    erewrite bind_ok by (apply is_alias_file_fst, Ha).
    cbn [negb]. unfold log at 1. cbn [ext trace].
    destruct (Hhop (tr ++ [EvRun (mdls_cmd (p j))])%list) as [_ Hr].
    erewrite bind_ok by (apply resolve_alias_fst, Hr).
    cbv beta iota.
    apply truthy_true_iff in Hne. rewrite Hne. cbn [negb].
    apply String.eqb_neq in Hdiff. rewrite Hdiff.
    destruct (IH p (S j) e ((tr ++ [EvRun (mdls_cmd (p j))]) ++ [EvRun (osascript_cmd (p j))])%list)
      as (evs & Heq & Hp & Hq & Hl).
    { intros i Hi. apply Hch. lia. }
    exists ([EvRun (mdls_cmd (p j)); EvRun (osascript_cmd (p j))] ++ evs)%list.
    unfold log. cbn [ext trace]. rewrite Heq.
    replace (S j + n)%nat with (j + S n)%nat by lia.
    rewrite <- !app_assoc. split; [reflexivity|].
    rewrite count_probes_app, count_resolves_app, List.length_app.
    destruct (count_probes_hop (p j)) as [-> ->]. cbn [List.length]. lia.
Qed.

(** C6.  [resolve_alias_chain] always returns, without an exception and
    without touching the machine, after at most [max_depth] probes and at
    most [max_depth] hops (10 by default), and it does nothing else.  On a
    chain of aliases longer than the bound it makes exactly [max_depth]
    probes and hops and returns the path reached last, as a result and not
    as a failure. *)
Theorem resolve_alias_chain_terminates path max_depth (w : World E) :
  (exists r evs,
      resolve_alias_chain path max_depth w
      = (Ok r, mkWorld (ext w) (trace w ++ evs)%list)
      /\ (count_probes evs <= Z.to_nat max_depth)%nat
      /\ (count_resolves evs <= Z.to_nat max_depth)%nat
      /\ List.length evs = (count_probes evs + count_resolves evs)%nat)
  /\ (forall p : nat -> string,
        p 0%nat = path ->
        alias_chain (ext w) p (Z.to_nat max_depth) ->
        exists evs,
          resolve_alias_chain path max_depth w
          = (Ok (Some (p (Z.to_nat max_depth))),
             mkWorld (ext w) (trace w ++ evs)%list)
          /\ count_probes evs = Z.to_nat max_depth
          /\ count_resolves evs = Z.to_nat max_depth).
Proof.
  unfold resolve_alias_chain. split.
  - destruct (resolve_alias_chain_loop_bounded (Z.to_nat max_depth) path w)
      as (r & evs & Heq & Hp & Hr & Hl).
    exists r, evs. repeat split; auto; lia.
  - intros p Hp0 Hch.
    destruct (resolve_alias_chain_loop_exhausted
                (Z.to_nat max_depth) p 0%nat (ext w) (trace w))
      as (evs & Heq & Hp & Hr & _).
    { intros i Hi. apply Hch. lia. }
    exists evs. rewrite world_eta, Hp0 in Heq. auto.
Qed.

Lemma resolve_alias_chain_loop_runs n :
  forall path (w : World E) r w',
    resolve_alias_chain_loop n path w = (r, w') ->
    exists evs, w' = mkWorld (ext w) (trace w ++ evs)%list
                /\ forallb is_run evs = true.
Proof.
  induction n as [|n IH]; intros path w r w'.
  - intros [= <- <-]. exists []. now rewrite app_nil_r, world_eta.
  - cbn [resolve_alias_chain_loop].
    erewrite bind_ok by apply is_alias_file_eq.
    destruct (negb _).
    { intros [= <- <-]. now exists [EvRun (mdls_cmd path)]. }
    erewrite bind_ok by apply resolve_alias_eq.
    assert (Hstop : forall r0 : option string,
      (Ok r0, log (EvRun (osascript_cmd path)) (log (EvRun (mdls_cmd path)) w))
      = (r, w') ->
      exists evs, w' = mkWorld (ext w) (trace w ++ evs)%list
                  /\ forallb is_run evs = true).
    { intros r0 [= <- <-].
      exists [EvRun (mdls_cmd path); EvRun (osascript_cmd path)].
      unfold log. cbn [ext trace]. now rewrite <- app_assoc. }
    match goal with |- context [match ?x with _ => _ end] => destruct x as [q|] end;
      [|apply Hstop].
    destruct (negb (pystr.truthy q)); [apply Hstop|].
    destruct (String.eqb q path); [apply Hstop|].
    intros Hrec. apply IH in Hrec as (evs & -> & Hruns).
    exists ([EvRun (mdls_cmd path); EvRun (osascript_cmd path)] ++ evs)%list.
    unfold log. cbn [ext trace]. rewrite <- !app_assoc. split; [reflexivity|].
    exact Hruns.
Qed.

Lemma ensure_dir_trace path (w : World E) r w' :
  ensure_dir path w = (r, w') ->
  exists evs, trace w' = (trace w ++ evs)%list /\ forallb is_write evs = true.
Proof.
  unfold ensure_dir, bind, exists_, isdir, query, makedirs, raise, ret.
  destruct (os_path_exists path (ext w)).
  - destruct (os_path_isdir path (ext w)); cbn [negb];
      intros [= <- <-]; exists []; now rewrite app_nil_r.
  - destruct (os_makedirs path (ext w)) as [r0 e0].
    intros [= <- <-]. now exists [EvMakedirs path].
Qed.

Lemma copy_file_trace s d f (w : World E) r w' :
  copy_file s d f w = (r, w') ->
  exists evs,
    trace w' = (trace w ++ evs)%list
    /\ forallb is_write evs = true
    /\ (r = Ok tt -> exists mk, evs = (mk ++ [EvCopy2 s d f])%list).
Proof.
  unfold copy_file. unfold bind at 1.
  destruct ((if pystr.truthy (posixpath.dirname d)
             then ensure_dir (posixpath.dirname d) else ret tt) w)
    as [r0 w0] eqn:Hens.
  assert (Hpre : exists evs, trace w0 = (trace w ++ evs)%list
                             /\ forallb is_write evs = true).
  { destruct (pystr.truthy _).
    - eapply ensure_dir_trace, Hens.
    - injection Hens as <- <-. exists []. now rewrite app_nil_r. }
  destruct Hpre as (mk & Hmk & Hw).
  destruct r0 as [[]|e].
  - unfold copy2.
    destruct (shutil_copy2 s d f (ext w0)) as [r1 e1].
    intros [= <- <-]. exists (mk ++ [EvCopy2 s d f])%list. cbn [trace].
    rewrite Hmk, <- app_assoc. split; [reflexivity|]. split.
    + rewrite forallb_app, Hw. reflexivity.
    + intros _. now exists mk.
  - intros [= <- <-]. exists mk. repeat split; auto. discriminate.
Qed.

(** *** Dispatch *)

Lemma copy_item_fallback_eq fuel src dest v (w w1 w2 : World E) r :
  is_alias_file src w = (Ok true, w1) ->
  resolve_alias_chain src default_max_depth w1 = (Ok r, w2) ->
  match r with Some t => pystr.truthy t = false | None => True end ->
  copy_item (S fuel) src dest v w
  = copy_file src dest false (log (warning src) w2).
Proof.
  intros Ha Hr Hf. cbn [copy_item]. unfold copy_item_with.
  erewrite bind_ok by exact Ha. cbv beta iota.
  erewrite bind_ok by exact Hr. cbv beta iota.
  destruct r as [t|]; [rewrite Hf|]; reflexivity.
Qed.

Lemma copy_item_handoff_eq fuel src dest v (w w1 w2 : World E) t :
  is_alias_file src w = (Ok true, w1) ->
  resolve_alias_chain src default_max_depth w1 = (Ok (Some t), w2) ->
  t <> "" ->
  copy_item (S fuel) src dest v w
  = copy_target fuel t (extended_name (os_path_isdir t (ext w2)) dest t) v
      (if v then log (alias_note src t) w2 else w2).
Proof.
  intros Ha Hr Ht. cbn [copy_item]. unfold copy_item_with.
  erewrite bind_ok by exact Ha. cbv beta iota.
  erewrite bind_ok by exact Hr. cbv beta iota.
  apply truthy_true_iff in Ht. rewrite Ht.
  destruct v.
  - erewrite bind_ok by reflexivity.
    erewrite bind_ok by apply ensure_target_extension_eq. reflexivity.
  - erewrite bind_ok by reflexivity.
    erewrite bind_ok by apply ensure_target_extension_eq. reflexivity.
Qed.

Lemma copy_item_not_alias fuel src dest v (w w1 : World E) :
  is_alias_file src w = (Ok false, w1) ->
  copy_item (S fuel) src dest v w
  = if os_path_isdir src (ext w1) && negb (os_path_islink src (ext w1))
    then copy_directory fuel src dest v w1
    else copy_file src dest false w1.
Proof.
  intros Ha. cbn [copy_item]. unfold copy_item_with.
  erewrite bind_ok by exact Ha. cbv beta iota.
  unfold isdir, islink, query. unfold bind at 1. unfold bind at 1.
  destruct (_ && _); reflexivity.
Qed.

Lemma copy_target_not_alias fuel src dest v (w w1 : World E) :
  is_alias_file src w = (Ok false, w1) ->
  copy_target fuel src dest v w
  = if os_path_isdir src (ext w1)
    then copy_directory fuel src dest v w1
    else copy_file src dest true w1.
Proof.
  intros Ha. unfold copy_target, copy_target_with.
  erewrite bind_ok by exact Ha. cbv beta iota.
  erewrite bind_ok by reflexivity.
  unfold isdir, query. unfold bind at 1.
  destruct (os_path_isdir _ _); reflexivity.
Qed.

Lemma copy_target_alias fuel src dest v (w w1 w2 : World E) r :
  is_alias_file src w = (Ok true, w1) ->
  resolve_alias_chain src default_max_depth w1 = (Ok r, w2) ->
  let src' := match r with
              | Some q => if pystr.truthy q then q else src
              | None => src
              end in
  copy_target fuel src dest v w
  = if os_path_isdir src' (ext w2)
    then copy_directory fuel src' dest v w2
    else copy_file src' dest true w2.
Proof.
  intros Ha Hr src'. unfold copy_target, copy_target_with.
  erewrite bind_ok by exact Ha. cbv beta iota.
  erewrite (bind_ok _ _ w1 src' w2).
  - unfold isdir, query. unfold bind at 1.
    destruct (os_path_isdir _ _); reflexivity.
  - erewrite bind_ok by exact Hr. subst src'.
    destruct r as [q|]; [destruct (pystr.truthy q)|]; reflexivity.
Qed.

Lemma runs_print_nothing evs :
  forallb is_run evs = true -> List.filter is_print evs = [].
Proof.
  induction evs as [|ev evs IH]; [reflexivity|].
  cbn [forallb List.filter]. intros [Hev Hevs]%andb_true_iff.
  destruct ev; try discriminate. cbn [is_print]. auto.
Qed.

Lemma writes_print_nothing evs :
  forallb is_write evs = true -> List.filter is_print evs = [].
Proof.
  induction evs as [|ev evs IH]; [reflexivity|].
  cbn [forallb List.filter]. intros [Hev Hevs]%andb_true_iff.
  destruct ev; try discriminate; cbn [is_print]; auto.
Qed.

Lemma resolve_alias_chain_runs path max_depth (w : World E) r w' :
  resolve_alias_chain path max_depth w = (r, w') ->
  exists evs, w' = mkWorld (ext w) (trace w ++ evs)%list
              /\ forallb is_run evs = true.
Proof. apply resolve_alias_chain_loop_runs. Qed.

(** C5.  An alias whose chain resolution gives [None]: [copy_item] prints
    the warning on the error stream and then does what the literal copy of
    the alias file, links not followed, does, and nothing else; its
    outcome is the outcome of that copy.  When the copy goes through,
    [copy_item] returns normally and the copy was its last action. *)
Theorem copy_item_unresolved_alias fuel src dest v (w w1 w2 : World E) :
  is_alias_file src w = (Ok true, w1) ->
  resolve_alias_chain src default_max_depth w1 = (Ok None, w2) ->
  copy_item (S fuel) src dest v w
  = copy_file src dest false (log (warning src) w2)
  /\ exists r w' evs,
      copy_item (S fuel) src dest v w = (r, w')
      /\ trace w' = (trace w2 ++ [warning src] ++ evs)%list
      /\ forallb is_write evs = true
      /\ (r = Ok tt -> exists mk, evs = (mk ++ [EvCopy2 src dest false])%list).
Proof.
  intros Ha Hr.
  assert (Heq := copy_item_fallback_eq fuel src dest v w w1 w2 None Ha Hr I).
  split; [exact Heq|]. rewrite Heq.
  destruct (copy_file src dest false (log (warning src) w2)) as [r w'] eqn:Hc.
  destruct (copy_file_trace _ _ _ _ _ _ Hc) as (evs & Ht & Hw & Hok).
  exists r, w', evs. split; [reflexivity|].
  rewrite Ht. unfold log. cbn [trace]. rewrite <- app_assoc. auto.
Qed.

(** C10.  When [copy_target] finds that its source probes as an alias and
    the chain resolution gives [None], it keeps the source: the source,
    being a file, is copied with links followed, and nothing is printed.
    [copy_item] in the same situation prints the warning and copies with
    links not followed. *)
Theorem copy_target_unresolved_alias fuel src dest v (w w1 w2 : World E) :
  is_alias_file src w = (Ok true, w1) ->
  resolve_alias_chain src default_max_depth w1 = (Ok None, w2) ->
  os_path_isdir src (ext w2) = false ->
  copy_target fuel src dest v w = copy_file src dest true w2
  /\ (exists r w' evs,
        copy_target fuel src dest v w = (r, w')
        /\ trace w' = (trace w ++ evs)%list
        /\ List.filter is_print evs = []
        /\ (r = Ok tt -> exists pre, evs = (pre ++ [EvCopy2 src dest true])%list))
  /\ copy_item (S fuel) src dest v w
     = copy_file src dest false (log (warning src) w2).
Proof.
  intros Ha Hr Hd.
  assert (Heq : copy_target fuel src dest v w = copy_file src dest true w2).
  { rewrite (copy_target_alias fuel src dest v w w1 w2 None Ha Hr).
    now rewrite Hd. }
  split; [exact Heq|]. split.
  - rewrite Heq.
    destruct (copy_file src dest true w2) as [r w'] eqn:Hc.
    destruct (copy_file_trace _ _ _ _ _ _ Hc) as (evs & Ht & Hw & Hok).
    rewrite is_alias_file_eq in Ha. injection Ha as _ <-.
    apply resolve_alias_chain_runs in Hr as (runs & -> & Hruns).
    exists r, w', ((EvRun (mdls_cmd src) :: runs) ++ evs)%list.
    split; [reflexivity|]. split; [|split].
    + rewrite Ht. unfold log. cbn [ext trace].
      now rewrite <- !app_assoc.
    + rewrite List.filter_app. cbn [List.filter is_print].
      now rewrite (runs_print_nothing _ Hruns), (writes_print_nothing _ Hw).
    + intros Hrok. destruct (Hok Hrok) as [mk ->].
      exists ((EvRun (mdls_cmd src) :: runs) ++ mk)%list.
      now rewrite <- app_assoc.
  - exact (copy_item_fallback_eq fuel src dest v w w1 w2 None Ha Hr I).
Qed.


(** C3 (as the script has it).  After a successful chain resolution
    [copy_item] names the destination and hands the target to
    [copy_target], which classifies the target once more.  A target that
    does not probe as an alias is dispatched at once: a directory has its
    contents copied recursively, anything else is copied as a file with
    links followed.  A target that still probes as an alias is resolved
    again, and the path this gives (the target itself when it gives none)
    is dispatched the same way. *)
Theorem copy_item_resolved_dispatch fuel src dest (v : bool)
        (w w1 w2 : World E) t :
  is_alias_file src w = (Ok true, w1) ->
  resolve_alias_chain src default_max_depth w1 = (Ok (Some t), w2) ->
  t <> "" ->
  let w3 := if v then log (alias_note src t) w2 else w2 in
  let name := extended_name (os_path_isdir t (ext w2)) dest t in
  exists (a : bool) w4,
    is_alias_file t w3 = (Ok a, w4)
    /\ if a then
         exists r w5,
           resolve_alias_chain t default_max_depth w4 = (Ok r, w5)
           /\ let t' := match r with
                        | Some q => if pystr.truthy q then q else t
                        | None => t
                        end in
              copy_item (S fuel) src dest v w
              = if os_path_isdir t' (ext w5)
                then copy_directory fuel t' name v w5
                else copy_file t' name true w5
       else
         copy_item (S fuel) src dest v w
         = if os_path_isdir t (ext w4)
           then copy_directory fuel t name v w4
           else copy_file t name true w4.
Proof.
  intros Ha Hr Ht w3 name.
  rewrite (copy_item_handoff_eq fuel src dest v w w1 w2 t Ha Hr Ht).
  fold w3 name.
  destruct (is_alias_file t w3) as [ra w4] eqn:Hp.
  assert (Hp' := Hp). rewrite is_alias_file_eq in Hp'.
  injection Hp' as <- _.
  eexists _, w4. split; [reflexivity|].
  match type of Hp with _ = (Ok ?b, _) => destruct b eqn:Hb end.
  - destruct (resolve_alias_chain_loop_bounded
                (Z.to_nat default_max_depth) t w4) as (r & evs & Hc & _).
    fold (resolve_alias_chain t default_max_depth) in Hc.
    eexists r, _. split; [exact Hc|].
    apply (copy_target_alias fuel t name v w3 w4 _ r Hp Hc).
  - apply (copy_target_not_alias fuel t name v w3 w4 Hp).
Qed.

Lemma alias_hop_functional e a b b' :
  alias_hop e a b -> alias_hop e a b' -> b = b'.
Proof.
  intros Hb Hb'. destruct (Hb []) as [_ H1]. destruct (Hb' []) as [_ H2].
  congruence.
Qed.

(** A chain that ends on a path that is not an alias never stays in
    place: a hop from a path to itself would be repeated for ever. *)
Lemma alias_links_chain e p k :
  alias_links e p k -> not_alias e (p k) -> alias_chain e p k.
Proof.
  intros Hl Hlast i Hi. destruct (Hl i Hi) as [Hhop Hne].
  split; [exact Hhop|]. split; [exact Hne|]. intros Hstay.
  assert (Hstuck : forall d, (i + d <= k)%nat -> p (i + d)%nat = p i).
  { induction d as [|d IH]; intros Hd.
    - now rewrite Nat.add_0_r.
    - destruct (Hl (i + d)%nat ltac:(lia)) as [Hhop' _].
      rewrite IH in Hhop' by lia. rewrite Hstay in Hhop.
      replace (i + S d)%nat with (S (i + d)) by lia.
      apply (alias_hop_functional _ _ _ _ Hhop' Hhop). }
  specialize (Hstuck (k - i)%nat ltac:(lia)).
  replace (i + (k - i))%nat with k in Hstuck by lia.
  destruct (Hhop []) as [Ha _]. specialize (Hlast []).
  rewrite Hstuck in Hlast. congruence.
Qed.

Lemma ensure_dir_present path (w : World E) :
  os_path_exists path (ext w) = true ->
  os_path_isdir path (ext w) = true ->
  ensure_dir path w = (Ok tt, w).
Proof.
  intros He Hd. unfold ensure_dir, bind, exists_, isdir, query.
  now rewrite He, Hd.
Qed.

(** ** [main] *)

(** C9.  When the real paths of source and destination are the same, or
    the real path of the destination lies inside the real path of the
    source, [main] returns 1, and all it did is print one line on the
    error stream: the machine is as it was, no directory was made and no
    file copied. *)
Theorem main_refuses_overlap fuel (w : World E) ns :
  argparse_parse_args (ext w) = Ok ns ->
  let source_real :=
    os_path_realpath (os_path_abspath (source ns) (ext w)) (ext w) in
  let destination_real :=
    os_path_realpath (os_path_abspath (destination ns) (ext w)) (ext w) in
  source_real = destination_real
  \/ nested_inside destination_real source_real ->
  exists msg, main fuel w = (Ok 1, log (EvPrint Stderr msg) w).
Proof.
  intros Hargs sr dr Hover. unfold main.
  unfold bind at 1. unfold query at 1.
  destruct (negb (String.eqb (sys_platform (ext w)) "darwin")).
  { eexists. reflexivity. }
  unfold bind at 1. unfold parse_args at 1. rewrite Hargs.
  unfold bind at 1. unfold abspath at 1, query at 1.
  unfold bind at 1. unfold abspath at 1, query at 1.
  unfold bind at 1. unfold isdir at 1, query at 1.
  destruct (negb (os_path_isdir _ _)).
  { eexists. reflexivity. }
  unfold bind at 1. unfold realpath at 1, query at 1.
  unfold bind at 1. unfold realpath at 1, query at 1.
  fold sr dr.
  destruct (String.eqb_spec sr dr) as [Heq|Hne].
  { eexists. reflexivity. }
  destruct Hover as [Heq | (cs & extra & Hall & Hs & Hd)]; [contradiction|].
  rewrite Hs, Hd, (commonpath_nested _ _ Hall), String.eqb_refl.
  eexists. reflexivity.
Qed.

End Properties.

(** ** The in-memory machine *)

Lemma isdir_exists fs p : memfs.isdir_b fs p = true -> memfs.exists_b fs p = true.
Proof. unfold memfs.isdir_b, memfs.exists_b. now destruct (memfs.stat fs p) as [[]|]. Qed.



Lemma follow_not_link fs p n :
  match memfs.lstat fs p with Some (memfs.Symlink _) => False | _ => True end ->
  memfs.follow n fs p = Some p.
Proof. destruct n; cbn [memfs.follow]; destruct (memfs.lstat fs p) as [[]|]; tauto. Qed.

Lemma stat_not_link fs p :
  match memfs.lstat fs p with Some (memfs.Symlink _) => False | _ => True end ->
  memfs.stat fs p = memfs.lstat fs p.
Proof. intros Hp. unfold memfs.stat. now rewrite (follow_not_link _ _ _ Hp). Qed.

Lemma ensure_parent_present (m : memfs.machine) tr dst :
  posixpath.dirname dst = ""
  \/ memfs.isdir_b (memfs.files m) (posixpath.dirname dst) = true ->
  (if pystr.truthy (posixpath.dirname dst)
   then ensure_dir (posixpath.dirname dst) else ret tt) (mkWorld m tr)
  = (Ok tt, mkWorld m tr).
Proof.
  intros Hparent.
  destruct (pystr.truthy (posixpath.dirname dst)) eqn:Hd; [|reflexivity].
  destruct Hparent as [Hp|Hp].
  - apply truthy_true_iff in Hd. contradiction.
  - apply ensure_dir_present; [apply isdir_exists|]; exact Hp.
Qed.

Lemma parent_ok_present fs dst :
  posixpath.dirname dst = ""
  \/ memfs.isdir_b fs (posixpath.dirname dst) = true ->
  memfs.parent_ok fs dst = true.
Proof.
  unfold memfs.parent_ok. intros [Hp|Hp].
  - apply truthy_false_iff in Hp. now rewrite Hp.
  - rewrite Hp. now rewrite !orb_true_r.
Qed.

(** What the operations need of a placed path: it is not the empty path
    and its directory is there. *)
Lemma normal_nonempty p : memfs.normal p = true -> p <> "".
Proof. intros Hn ->. discriminate Hn. Qed.

Lemma lstat_dir_isdir fs p :
  memfs.lstat fs p = Some memfs.Dir -> memfs.isdir_b fs p = true.
Proof.
  intros Hp. unfold memfs.isdir_b.
  rewrite stat_not_link by now rewrite Hp. now rewrite Hp.
Qed.

Lemma placed_nonempty fs dst : memfs.placed fs dst -> dst <> "".
Proof. intros (_ & Hn & _). now apply normal_nonempty. Qed.

Lemma placed_parent fs dst :
  memfs.placed fs dst ->
  posixpath.dirname dst = ""
  \/ memfs.isdir_b fs (posixpath.dirname dst) = true.
Proof. intros (_ & _ & Hd & _). right. now apply lstat_dir_isdir. Qed.

(** What the conditions of [memfs.tidy] say of each entry. *)
Lemma tidy_lookup fs p nd :
  memfs.tidy fs = true ->
  fs !! p = Some nd ->
  memfs.normal p = true /\ fs !! posixpath.dirname p = Some memfs.Dir.
Proof.
  unfold memfs.tidy. rewrite forallb_forall. intros Ht Hp.
  apply elem_of_map_to_list in Hp. apply list_elem_of_In in Hp.
  specialize (Ht _ Hp). cbn [fst] in Ht.
  apply andb_true_iff in Ht as [Hn Hd]. split; [exact Hn|].
  unfold memfs.is_dir in Hd.
  destruct (fs !! posixpath.dirname p) as [[]|]; congruence.
Qed.

Lemma tidy_intro fs :
  (forall p nd, fs !! p = Some nd ->
     memfs.normal p = true /\ fs !! posixpath.dirname p = Some memfs.Dir) ->
  memfs.tidy fs = true.
Proof.
  intros Hall. unfold memfs.tidy. apply forallb_forall. intros [p nd] Hin.
  apply list_elem_of_In, elem_of_map_to_list in Hin.
  destruct (Hall _ _ Hin) as [Hn Hd]. cbn [fst]. now rewrite Hn, Hd.
Qed.

(** In a tidy file system an entry is found under its normal name only. *)
Lemma tidy_lstat_normal fs p nd :
  memfs.tidy fs = true -> memfs.lstat fs p = Some nd -> memfs.normal p = true.
Proof.
  intros Ht Hp. unfold memfs.lstat in Hp.
  destruct (pystr.truthy p); [|discriminate].
  apply (tidy_lookup _ _ _ Ht Hp).
Qed.

(** Tidiness is kept by what a copy does: an entry made or replaced at a
    placed path that does not hold a directory. *)
Lemma placed_insert_tidy fs dst nd :
  memfs.placed fs dst ->
  memfs.lstat fs dst <> Some memfs.Dir ->
  memfs.tidy (<[dst := nd]> fs) = true.
Proof.
  intros (Ht & Hn & Hd & _) Hfree.
  assert (Hne : pystr.truthy dst = true).
  { destruct dst; [discriminate Hn | reflexivity]. }
  assert (Hfree' : fs !! dst <> Some memfs.Dir).
  { unfold memfs.lstat in Hfree. now rewrite Hne in Hfree. }
  assert (Hd' : fs !! posixpath.dirname dst = Some memfs.Dir).
  { unfold memfs.lstat in Hd.
    destruct (pystr.truthy (posixpath.dirname dst)); [exact Hd | discriminate]. }
  apply tidy_intro. intros p nd' Hp.
  assert (Hpar : forall q, fs !! posixpath.dirname q = Some memfs.Dir ->
                           <[dst := nd]> fs !! posixpath.dirname q = Some memfs.Dir).
  { intros q Hq. rewrite lookup_insert_ne; [exact Hq|]. congruence. }
  destruct (decide (dst = p)) as [<-|Hdiff].
  - split; [exact Hn | now apply Hpar].
  - rewrite lookup_insert_ne in Hp by exact Hdiff.
    destruct (tidy_lookup _ _ _ Ht Hp) as [Hnp Hdp].
    split; [exact Hnp | now apply Hpar].
Qed.

Lemma writable_insert_tidy fs dst nd :
  memfs.writable fs dst ->
  memfs.tidy (<[dst := nd]> fs) = true.
Proof.
  intros (Hp & Hfree). apply placed_insert_tidy; [exact Hp|].
  now rewrite Hfree.
Qed.

Lemma writable_not_link fs dst :
  memfs.writable fs dst ->
  match memfs.lstat fs dst with Some (memfs.Symlink _) => False | _ => True end.
Proof. intros (_ & Hfree). now rewrite Hfree. Qed.

Lemma writable_not_dir fs dst :
  memfs.writable fs dst -> memfs.isdir_b fs dst = false.
Proof.
  intros Hw. assert (Hnl := writable_not_link _ _ Hw).
  destruct Hw as (_ & Hfree).
  unfold memfs.isdir_b. rewrite (stat_not_link _ _ Hnl).
  now rewrite Hfree.
Qed.

(** Copying a file, reached directly or (links followed) through links. *)
Lemma copy_file_data (m : memfs.machine) tr src dst f q data :
  memfs.follow memfs.max_links (memfs.files m) src = Some q ->
  memfs.lstat (memfs.files m) q = Some (memfs.File data) ->
  f = true \/ q = src ->
  memfs.writable (memfs.files m) dst ->
  copy_file src dst f (mkWorld m tr)
  = (Ok tt, mkWorld (memfs.with_files m (<[dst := memfs.File data]> (memfs.files m)))
                    (tr ++ [EvCopy2 src dst f])%list).
Proof.
  intros Hq Hdata Hmode Hw.
  assert (Hnl := writable_not_link _ _ Hw).
  assert (Hnd := writable_not_dir _ _ Hw).
  destruct Hw as (Hplaced & Hfree).
  assert (Hdst := placed_nonempty _ _ Hplaced).
  assert (Hparent := placed_parent _ _ Hplaced).
  unfold copy_file. erewrite bind_ok by apply (ensure_parent_present _ _ _ Hparent).
  unfold copy2. cbn [shutil_copy2 memfs.platform ext trace]. unfold memfs.lift_fs.
  assert (Hcopy : memfs.copy2 src dst f (memfs.files m)
                  = (Ok tt, <[dst := memfs.File data]> (memfs.files m))).
  { unfold memfs.copy2. rewrite Hnd. unfold memfs.copyfile.
    assert (Hsame : memfs.samefile (memfs.files m) src dst = false).
    { unfold memfs.samefile.
      now rewrite Hq, (follow_not_link _ _ _ Hnl), Hdata, Hfree. }
    rewrite Hsame.
    assert (Hsel : match (if f then None else memfs.lstat (memfs.files m) src) with
                   | Some (memfs.Symlink _) => False | _ => True end).
    { destruct Hmode as [->| ->]; [exact I|]. destruct f; [exact I|].
      now rewrite Hdata. }
    assert (Hstat : memfs.stat (memfs.files m) src = Some (memfs.File data)).
    { unfold memfs.stat. now rewrite Hq. }
    destruct (if f then None else memfs.lstat (memfs.files m) src) as [[]|];
      try tauto; rewrite Hstat;
      unfold memfs.write_file; rewrite (follow_not_link _ _ _ Hnl);
      apply truthy_true_iff in Hdst; rewrite Hdst; cbn [negb];
      rewrite (parent_ok_present _ _ Hparent);
      now rewrite Hfree. }
  rewrite Hcopy. reflexivity.
Qed.

(** Copying a link as a link. *)
Lemma copy_file_link (m : memfs.machine) tr src dst t :
  memfs.lstat (memfs.files m) src = Some (memfs.Symlink t) ->
  memfs.writable (memfs.files m) dst ->
  copy_file src dst false (mkWorld m tr)
  = (Ok tt, mkWorld (memfs.with_files m (<[dst := memfs.Symlink t]> (memfs.files m)))
                    (tr ++ [EvCopy2 src dst false])%list).
Proof.
  intros Hsrc (Hplaced & Hfree).
  assert (Hdst := placed_nonempty _ _ Hplaced).
  assert (Hparent := placed_parent _ _ Hplaced).
  unfold copy_file. erewrite bind_ok by apply (ensure_parent_present _ _ _ Hparent).
  unfold copy2. cbn [shutil_copy2 memfs.platform ext trace]. unfold memfs.lift_fs.
  assert (Hnl : match memfs.lstat (memfs.files m) dst with
                | Some (memfs.Symlink _) => False | _ => True end)
    by now rewrite Hfree.
  assert (Hcopy : memfs.copy2 src dst false (memfs.files m)
                  = (Ok tt, <[dst := memfs.Symlink t]> (memfs.files m))).
  { unfold memfs.copy2, memfs.isdir_b. rewrite (stat_not_link _ _ Hnl), Hfree.
    unfold memfs.copyfile.
    assert (Hsame : memfs.samefile (memfs.files m) src dst = false).
    { unfold memfs.samefile. rewrite (follow_not_link _ _ _ Hnl), Hfree.
      destruct (memfs.follow _ _ src) as [q|]; [|reflexivity].
      now destruct (memfs.lstat (memfs.files m) q). }
    rewrite Hsame, Hsrc, Hfree.
    apply truthy_true_iff in Hdst. rewrite Hdst.
    now rewrite (parent_ok_present _ _ Hparent). }
  rewrite Hcopy. reflexivity.
Qed.

Lemma is_alias_file_ext (m : memfs.machine) tr path a w1 :
  is_alias_file path (mkWorld m tr) = (Ok a, w1) -> ext w1 = m.
Proof. rewrite is_alias_file_eq. now intros [= _ <-]. Qed.

(** X12.  On the in-memory machine the fallback of [copy_item] goes
    through: for an alias that cannot be resolved and a destination that
    can take a new entry ([memfs.writable]: the one spelling of a place
    that is free), [copy_item] returns normally and leaves a copy of the alias file itself, byte for
    byte, at the destination, after the warning. *)
Lemma copy_item_unresolved_alias_bytes fuel (m : memfs.machine) tr src dest v
      w1 w2 data :
  is_alias_file src (mkWorld m tr) = (Ok true, w1) ->
  resolve_alias_chain src default_max_depth w1 = (Ok None, w2) ->
  memfs.lstat (memfs.files m) src = Some (memfs.File data) ->
  memfs.writable (memfs.files m) dest ->
  copy_item (S fuel) src dest v (mkWorld m tr)
  = (Ok tt,
     mkWorld (memfs.with_files m (<[dest := memfs.File data]> (memfs.files m)))
             (trace w2 ++ [warning src; EvCopy2 src dest false])%list).
Proof.
  intros Ha Hr Hsrc Hw.
  rewrite (copy_item_fallback_eq fuel src dest v _ w1 w2 None Ha Hr I).
  assert (He : ext w2 = m).
  { apply resolve_alias_chain_runs in Hr as (evs & -> & _).
    apply (is_alias_file_ext _ _ _ _ _ Ha). }
  unfold log. rewrite He.
  rewrite (copy_file_data m _ src dest false src data); auto.
  - now rewrite <- app_assoc.
  - apply follow_not_link. now rewrite Hsrc.
Qed.

(** X11.  On the in-memory machine a symbolic link met as an entry, whatever
    it leads to (a file, a directory, nothing), arrives as a link with the
    same referent: it is neither followed nor descended into.  The
    destination can take a new entry ([memfs.writable]: the one spelling
    of a place that is free). *)
Lemma copy_item_link_entry fuel (m : memfs.machine) tr src dest v t :
  not_alias m src ->
  memfs.lstat (memfs.files m) src = Some (memfs.Symlink t) ->
  memfs.writable (memfs.files m) dest ->
  copy_item (S fuel) src dest v (mkWorld m tr)
  = (Ok tt,
     mkWorld (memfs.with_files m (<[dest := memfs.Symlink t]> (memfs.files m)))
             (tr ++ [EvRun (mdls_cmd src); EvCopy2 src dest false])%list).
Proof.
  intros Hna Hsrc Hw.
  assert (Hl : os_path_islink src (ext (mkWorld m tr)) = true).
  { cbn. unfold memfs.islink_b. now rewrite Hsrc. }
  rewrite (copy_item_not_alias fuel src dest v _ _
             (is_alias_file_fst _ _ _ (Hna tr))).
  unfold log. cbn [ext trace] in *. rewrite Hl, andb_false_r.
  rewrite (copy_file_link m _ src dest t Hsrc Hw).
  now rewrite <- app_assoc.
Qed.

(** X13.  On the in-memory machine a symbolic link handed to [copy_target]
    (the target of an alias) arrives as a regular file holding the bytes
    of the file the link leads to, when the destination can take a new
    entry ([memfs.writable]: the one spelling of a place that is free). *)
Lemma copy_target_through_link fuel (m : memfs.machine) tr src dest v q data :
  not_alias m src ->
  memfs.follow memfs.max_links (memfs.files m) src = Some q ->
  memfs.lstat (memfs.files m) q = Some (memfs.File data) ->
  memfs.writable (memfs.files m) dest ->
  copy_target fuel src dest v (mkWorld m tr)
  = (Ok tt,
     mkWorld (memfs.with_files m (<[dest := memfs.File data]> (memfs.files m)))
             (tr ++ [EvRun (mdls_cmd src); EvCopy2 src dest true])%list).
Proof.
  intros Hna Hq Hdata Hw.
  assert (Hd : os_path_isdir src (ext (mkWorld m tr)) = false).
  { cbn. unfold memfs.isdir_b, memfs.stat. now rewrite Hq, Hdata. }
  rewrite (copy_target_not_alias fuel src dest v _ _
             (is_alias_file_fst _ _ _ (Hna tr))).
  unfold log. cbn [ext trace] in *. rewrite Hd.
  rewrite (copy_file_data m _ src dest true q data); auto.
  now rewrite <- app_assoc.
Qed.


(** ** Runs on the sample machines *)

(** A run is compared with its expected outcome by evaluating the result;
    the world it ends in is named by the run itself. *)
Lemma run_eq {A B : Type} (p : A * B) (a : A) (b : B) :
  fst p = a -> snd p = b -> p = (a, b).
Proof. destruct p. cbn. congruence. Qed.

Ltac run := apply run_eq; [vm_compute; reflexivity | reflexivity].

(** The paths with another spelling are not in normal form. *)
Example normal_paths :
  memfs.normal "/" = true
  /\ memfs.normal "/dst/Doc.alias.pdf" = true
  /\ memfs.normal "" = false
  /\ memfs.normal "dst/report.pdf" = false
  /\ memfs.normal "//dst" = false
  /\ memfs.normal "/dst/" = false
  /\ memfs.normal "/Targets//report.pdf" = false
  /\ memfs.normal "/Targets/./report.pdf" = false
  /\ memfs.normal "/dst/../Targets/report.pdf" = false.
Proof. vm_compute. repeat split. Qed.

(** A destination that is the target or another spelling of it (a doubled
    separator, a way through a linked directory, another case, a relative
    path) cannot take the copy; a free name in normal form can. *)
Example other_spellings_not_writable :
  ~ memfs.writable samples.doc_files "/Targets/report.pdf"
  /\ ~ memfs.writable samples.doc_files "/Targets//report.pdf"
  /\ ~ memfs.writable (memfs.files samples.shortcut) "/dst/T/report.pdf"
  /\ ~ memfs.writable samples.doc_files "/Targets/Report.PDF"
  /\ ~ memfs.writable samples.doc_files "Targets/report.pdf"
  /\ memfs.writable samples.doc_files "/dst/Doc.alias.pdf".
Proof.
  repeat split;
    try (intros ((Ht & Hn & Hd & Hc) & Hfree);
         vm_compute in Hn, Hd, Hc, Hfree; discriminate);
    vm_compute; reflexivity.
Qed.


(** On two aliases that point to each other the resolution stops after ten
    probes and ten hops, back on the path it started from. *)
Lemma resolve_alias_chain_pingpong :
  exists evs,
    resolve_alias_chain "/A" 10 (memfs.boot samples.pingpong)
    = (Ok (Some "/A"), mkWorld samples.pingpong evs)
    /\ count_probes evs = 10%nat /\ count_resolves evs = 10%nat.
Proof.
  destruct (resolve_alias_chain_terminates "/A" 10 (memfs.boot samples.pingpong))
    as [_ Hlong].
  destruct (Hlong samples.pingpong_path eq_refl) as (evs & Heq & Hp & Hr).
  - intros i Hi. change (Z.to_nat 10) with 10%nat in Hi.
    do 10 (destruct i as [|i];
           [repeat split; try discriminate; intros tr; reflexivity|]).
    lia.
  - exists evs. repeat split; assumption.
Defined.

Lemma resolve_alias_chain_early_exits_doc :
  0 < 10
  /\ exists a w1,
      is_alias_file "/src/Doc.alias" (memfs.boot samples.doc) = (Ok a, w1)
      /\ if negb a
         then resolve_alias_chain "/src/Doc.alias" 10 (memfs.boot samples.doc)
              = (Ok (Some "/src/Doc.alias"), w1)
         else exists r w2,
             resolve_alias "/src/Doc.alias" w1 = (Ok r, w2)
             /\ match r with
                | None =>
                    resolve_alias_chain "/src/Doc.alias" 10 (memfs.boot samples.doc)
                    = (Ok None, w2)
                | Some q =>
                    if String.eqb q "" then
                      resolve_alias_chain "/src/Doc.alias" 10 (memfs.boot samples.doc)
                      = (Ok None, w2)
                    else if String.eqb q "/src/Doc.alias" then
                      resolve_alias_chain "/src/Doc.alias" 10 (memfs.boot samples.doc)
                      = (Ok (Some "/src/Doc.alias"), w2)
                    else
                      resolve_alias_chain "/src/Doc.alias" 10 (memfs.boot samples.doc)
                      = resolve_alias_chain q (10 - 1) w2
                end.
Proof.
  split; [lia|].
  apply (resolve_alias_chain_early_exits "/src/Doc.alias" 10 (memfs.boot samples.doc)).
  lia.
Defined.

(** The unmounted volume: warning, then the alias file itself is copied. *)
Example copy_item_unmounted_run :
  let '(r, w') := copy_item 1 "/src/Doc.alias" "/dst/Doc.alias" false
                    (memfs.boot samples.unmounted) in
  r = Ok tt
  /\ memfs.files (ext w') !! "/dst/Doc.alias" = Some (memfs.File "alias-record")
  /\ trace w' = [EvRun (mdls_cmd "/src/Doc.alias");
                 EvRun (mdls_cmd "/src/Doc.alias");
                 EvRun (osascript_cmd "/src/Doc.alias");
                 warning "/src/Doc.alias";
                 EvCopy2 "/src/Doc.alias" "/dst/Doc.alias" false].
Proof. vm_compute. repeat split. Qed.

Lemma copy_item_unresolved_alias_unmounted :
  let src := "/src/Doc.alias" in
  let dest := "/dst/Doc.alias" in
  let w := memfs.boot samples.unmounted in
  let w1 := snd (is_alias_file src w) in
  let w2 := snd (resolve_alias_chain src default_max_depth w1) in
  is_alias_file src w = (Ok true, w1)
  /\ resolve_alias_chain src default_max_depth w1 = (Ok None, w2)
  /\ copy_item 1 src dest false w
     = copy_file src dest false (log (warning src) w2)
  /\ exists r w' evs,
      copy_item 1 src dest false w = (r, w')
      /\ trace w' = (trace w2 ++ [warning src] ++ evs)%list
      /\ forallb is_write evs = true
      /\ (r = Ok tt -> exists mk, evs = (mk ++ [EvCopy2 src dest false])%list).
Proof.
  intros src dest w w1 w2.
  assert (H1 : is_alias_file src w = (Ok true, w1)) by run.
  assert (H2 : resolve_alias_chain src default_max_depth w1 = (Ok None, w2))
    by run.
  split; [exact H1|]. split; [exact H2|].
  exact (copy_item_unresolved_alias 0 src dest false w w1 w2 H1 H2).
Defined.

Lemma copy_target_unresolved_alias_unmounted :
  let src := "/src/Doc.alias" in
  let dest := "/dst/Doc.alias" in
  let w := memfs.boot samples.unmounted in
  let w1 := snd (is_alias_file src w) in
  let w2 := snd (resolve_alias_chain src default_max_depth w1) in
  copy_target 0 src dest false w = copy_file src dest true w2
  /\ (exists r w' evs,
        copy_target 0 src dest false w = (r, w')
        /\ trace w' = (trace w ++ evs)%list
        /\ List.filter is_print evs = []
        /\ (r = Ok tt -> exists pre, evs = (pre ++ [EvCopy2 src dest true])%list))
  /\ copy_item 1 src dest false w
     = copy_file src dest false (log (warning src) w2).
Proof.
  intros src dest w w1 w2.
  apply (copy_target_unresolved_alias 0 src dest false w w1 w2);
    [run | run | vm_compute; reflexivity].
Defined.

Example symlink_entry_run :
  let '(r, w') := copy_item 1 "/src/link" "/dst/link" false
                    (memfs.boot samples.linked) in
  r = Ok tt
  /\ memfs.files (ext w') !! "/dst/link" = Some (memfs.Symlink "/src/data.txt").
Proof. vm_compute. repeat split. Qed.

Example symlink_behind_alias_run :
  let '(r, w') := copy_item 2 "/src/Pointer" "/dst/Pointer" false
                    (memfs.boot samples.linked) in
  r = Ok tt
  /\ memfs.files (ext w') !! "/dst/Pointer" = Some (memfs.File "payload").
Proof. vm_compute. repeat split. Qed.


(** The target found by the resolution is probed again by [copy_target],
    and a target that still probes as an alias is resolved again. *)
Lemma copy_item_probes_target_again :
  (let src := "/src/Doc.alias" in
   let w := memfs.boot samples.doc in
   let w1 := snd (is_alias_file src w) in
   let '(r, w2) := resolve_alias_chain src default_max_depth w1 in
   let '(_, w3) := copy_item 2 src "/dst/Doc.alias" false w in
   r = Ok (Some "/Targets/report.pdf")
   /\ trace w3
      = (trace w2 ++ [EvRun (mdls_cmd "/Targets/report.pdf");
                      EvCopy2 "/Targets/report.pdf" "/dst/Doc.alias.pdf" true])%list)
  /\ (let src := "/src/Loop" in
      let w := memfs.boot samples.selfref in
      let w1 := snd (is_alias_file src w) in
      let '(r, w2) := resolve_alias_chain src default_max_depth w1 in
      let '(_, w3) := copy_item 2 src "/dst/Loop" false w in
      r = Ok (Some "/src/Loop")
      /\ trace w3
         = (trace w2 ++ [EvRun (mdls_cmd "/src/Loop");
                         EvRun (mdls_cmd "/src/Loop");
                         EvRun (osascript_cmd "/src/Loop");
                         EvCopy2 "/src/Loop" "/dst/Loop" true])%list).
Proof. vm_compute. repeat split. Qed.

Lemma copy_item_resolved_dispatch_doc :
  let src := "/src/Doc.alias" in
  let t := "/Targets/report.pdf" in
  let w := memfs.boot samples.doc in
  let w1 := snd (is_alias_file src w) in
  let w2 := snd (resolve_alias_chain src default_max_depth w1) in
  let w4 := snd (is_alias_file t w2) in
  copy_item 2 src "/dst/Doc.alias" false w
  = copy_file t "/dst/Doc.alias.pdf" true w4.
Proof.
  intros src t w w1 w2 w4.
  assert (H1 : is_alias_file src w = (Ok true, w1)) by run.
  assert (H2 : resolve_alias_chain src default_max_depth w1 = (Ok (Some t), w2))
    by run.
  assert (H3 : t <> "") by discriminate.
  destruct (copy_item_resolved_dispatch 1 src "/dst/Doc.alias" false w w1 w2 t
              H1 H2 H3) as (a & w4' & Hp & Hd).
  assert (Hp' : is_alias_file t w2 = (Ok false, w4)) by run.
  cbv zeta in Hp.
  assert (Ha : a = false /\ w4' = w4) by (rewrite Hp' in Hp; split; congruence).
  destruct Ha as [-> ->].
  cbv zeta in Hd. rewrite Hd.
  assert (Hd4 : os_path_isdir t (ext w4) = false) by (vm_compute; reflexivity).
  assert (Hd2 : os_path_isdir t (ext w2) = false) by (vm_compute; reflexivity).
  rewrite Hd4, Hd2.
  replace (extended_name false "/dst/Doc.alias" t) with "/dst/Doc.alias.pdf"
    by (vm_compute; reflexivity).
  reflexivity.
Defined.

(** An [osascript] that exits with status zero and prints nothing: the call
    has failed in the sense of an empty output, and [resolve_alias] returns
    the empty string, not [None]. *)
Lemma resolve_alias_empty_output_not_none :
  let w := memfs.boot samples.silent in
  let cp := subprocess_run (osascript_cmd "/src/Doc.alias") (ext w) (trace w) in
  (returncode cp <> 0 \/ stdout cp = "")
  /\ fst (resolve_alias "/src/Doc.alias" w) = Ok (Some "")
  /\ fst (resolve_alias "/src/Doc.alias" w) <> Ok None.
Proof. vm_compute. split; [now right|]. split; [reflexivity | discriminate]. Qed.


Example main_overlap_runs :
  main 5 (memfs.boot samples.nested_dest)
  = (Ok 1,
     log (EvPrint Stderr
            ("error: destination cannot be inside the source directory" +:+ newline))
         (memfs.boot samples.nested_dest))
  /\ main 5 (memfs.boot samples.same_dest)
     = (Ok 1,
        log (EvPrint Stderr
               ("error: source and destination are the same directory" +:+ newline))
            (memfs.boot samples.same_dest)).
Proof. split; vm_compute; reflexivity. Qed.

Lemma main_refuses_overlap_samples :
  (exists msg,
      main 5 (memfs.boot samples.nested_dest)
      = (Ok 1, log (EvPrint Stderr msg) (memfs.boot samples.nested_dest)))
  /\ (exists msg,
         main 5 (memfs.boot samples.same_dest)
         = (Ok 1, log (EvPrint Stderr msg) (memfs.boot samples.same_dest))).
Proof.
  split.
  - assert (Hargs : argparse_parse_args (ext (memfs.boot samples.nested_dest))
                    = Ok (mkNamespace "/src" "/src/sub/dir" true)) by reflexivity.
    apply (main_refuses_overlap 5 _ _ Hargs).
    right. exists ["src"], ["sub"; "dir"]. repeat split.
  - assert (Hargs : argparse_parse_args (ext (memfs.boot samples.same_dest))
                    = Ok (mkNamespace "/src" "/Targets/../src/." false))
      by reflexivity.
    apply (main_refuses_overlap 5 _ _ Hargs).
    left. reflexivity.
Defined.

(** The names chosen for a copied alias. *)
Example ensure_target_extension_runs :
  let w := memfs.boot samples.tree in
  fst (ensure_target_extension "/dst/Doc.alias" "/Targets/report.pdf" w)
  = Ok "/dst/Doc.alias.pdf"
  /\ fst (ensure_target_extension "/dst/Doc.PDF" "/Targets/report.pdf" w)
     = Ok "/dst/Doc.PDF"
  /\ fst (ensure_target_extension "/dst/Folder" "/Targets" w) = Ok "/dst/Folder"
  /\ fst (ensure_target_extension "/dst/rc" "/Targets/.profile" w) = Ok "/dst/rc".
Proof. vm_compute. repeat split. Qed.

(** A whole run: the subdirectory is copied, the alias of a folder becomes
    a folder with the contents of its target, the alias of a file becomes
    that file, the symbolic link stays a link. *)
Example main_tree_run :
  let '(r, w') := main 5 (memfs.boot samples.tree) in
  let fs := memfs.files (ext w') in
  r = Ok 0
  /\ fs !! "/dst/sub/a.txt" = Some (memfs.File "A")
  /\ fs !! "/dst/Folder" = Some memfs.Dir
  /\ fs !! "/dst/Folder/report.pdf" = Some (memfs.File "%PDF-1.7")
  /\ fs !! "/dst/Doc.PDF" = Some (memfs.File "%PDF-1.7")
  /\ fs !! "/dst/ln" = Some (memfs.Symlink "/Targets")
  /\ size fs = 16%nat.
Proof. vm_compute. repeat split. Qed.

(** With room for one call of [copy_item] only, the subdirectory cannot be
    entered. *)
Example main_tree_shallow :
  fst (main 1 (memfs.boot samples.tree)) = Raise RecursionError.
Proof. vm_compute. reflexivity. Qed.

(** * Further properties *)

(** ** White space *)

Lemma lstrip_idem s : pystr.lstrip (pystr.lstrip s) = pystr.lstrip s.
Proof.
  induction s as [|c s IH]; [reflexivity|].
  cbn [pystr.lstrip]. destruct (pystr.isspace c) eqn:Hc; [exact IH|].
  cbn [pystr.lstrip]. now rewrite Hc.
Qed.

Lemma rstrip_idem s : pystr.rstrip (pystr.rstrip s) = pystr.rstrip s.
Proof.
  induction s as [|c s IH]; [reflexivity|].
  cbn [pystr.rstrip]. destruct (pystr.rstrip s) as [|c' r] eqn:Hr.
  - destruct (pystr.isspace c) eqn:Hc; [reflexivity|].
    cbn [pystr.rstrip]. now rewrite Hc.
  - cbn [pystr.rstrip] in IH |- *.
    destruct (pystr.rstrip r) as [|c'' r'] eqn:Hr'.
    + destruct (pystr.isspace c'); [discriminate|]. now rewrite IH.
    + now rewrite IH.
Qed.

Lemma lstrip_rstrip s :
  pystr.lstrip s = s -> pystr.lstrip (pystr.rstrip s) = pystr.rstrip s.
Proof.
  destruct s as [|c s]; [reflexivity|].
  cbn [pystr.lstrip]. destruct (pystr.isspace c) eqn:Hc.
  - intros Heq. exfalso.
    assert (Hlen : forall t, (String.length (pystr.lstrip t) <= String.length t)%nat).
    { induction t as [|a t IHt]; [reflexivity|]. cbn [pystr.lstrip].
      destruct (pystr.isspace a); cbn [String.length]; lia. }
    specialize (Hlen s). rewrite Heq in Hlen. cbn [String.length] in Hlen. lia.
  - intros _. cbn [pystr.rstrip].
    destruct (pystr.rstrip s); rewrite ?Hc; cbn [pystr.lstrip]; now rewrite Hc.
Qed.

Lemma strip_trimmed s : trimmed (pystr.strip s).
Proof.
  unfold trimmed, pystr.strip. split.
  - apply lstrip_rstrip, lstrip_idem.
  - apply rstrip_idem.
Qed.

Lemma trimmed_strip s : trimmed s -> pystr.strip s = s.
Proof. intros [Hl Hr]. unfold pystr.strip. now rewrite Hl, Hr. Qed.

Lemma rstrip_app_space s c :
  pystr.isspace c = true ->
  pystr.rstrip (s +:+ String c "") = pystr.rstrip s.
Proof.
  intros Hc. induction s as [|a s IH].
  - change ("" +:+ String c "") with (String c "").
    cbn [pystr.rstrip]. now rewrite Hc.
  - change (String a s +:+ String c "") with (String a (s +:+ String c "")).
    cbn [pystr.rstrip]. now rewrite IH.
Qed.

Lemma lstrip_app_space s c :
  pystr.isspace c = true ->
  pystr.lstrip (s +:+ String c "")
  = match pystr.lstrip s with
    | "" => ""
    | t => t +:+ String c ""
    end.
Proof.
  intros Hc. induction s as [|a s IH].
  - change ("" +:+ String c "") with (String c "").
    cbn [pystr.lstrip]. now rewrite Hc.
  - change (String a s +:+ String c "") with (String a (s +:+ String c "")).
    cbn [pystr.lstrip]. destruct (pystr.isspace a); [exact IH | reflexivity].
Qed.

Lemma strip_app_space s c :
  pystr.isspace c = true -> pystr.strip (s +:+ String c "") = pystr.strip s.
Proof.
  intros Hc. unfold pystr.strip. rewrite (lstrip_app_space _ _ Hc).
  destruct (pystr.lstrip s) as [|a t] eqn:Hs; [reflexivity|].
  now apply rstrip_app_space.
Qed.

(** ** Indices and slices *)

Lemma length_append a b :
  String.length (a +:+ b) = (String.length a + String.length b)%nat.
Proof.
  induction a as [|c a IH]; [reflexivity|].
  change (String c a +:+ b) with (String c (a +:+ b)).
  cbn [String.length Nat.add]. now rewrite IH.
Qed.

Lemma has_char_app ch a b :
  has_char ch (a +:+ b) = has_char ch a || has_char ch b.
Proof.
  induction a as [|c a IH]; [reflexivity|].
  change (String c a +:+ b) with (String c (a +:+ b)).
  cbn [has_char]. now rewrite IH, orb_assoc.
Qed.

Lemma substring_0_all s : String.substring 0 (String.length s) s = s.
Proof.
  induction s as [|c s IH]; [reflexivity|].
  cbn [String.length String.substring]. now rewrite IH.
Qed.

Lemma substring_0_app n a b :
  (n <= String.length a)%nat ->
  String.substring 0 n (a +:+ b) = String.substring 0 n a.
Proof.
  revert n. induction a as [|c a IH]; intros n Hn.
  - cbn [String.length] in Hn. assert (n = 0%nat) as -> by lia.
    now destruct b.
  - destruct n as [|n]; [reflexivity|].
    change (String c a +:+ b) with (String c (a +:+ b)).
    cbn [String.substring]. rewrite IH; [reflexivity | cbn [String.length] in Hn; lia].
Qed.

Lemma substring_skip a : forall j m b,
  String.substring (String.length a + j) m (a +:+ b) = String.substring j m b.
Proof.
  induction a as [|c a IH]; intros j m b; [reflexivity|].
  change (String c a +:+ b) with (String c (a +:+ b)).
  cbn [String.length Nat.add String.substring]. apply IH.
Qed.

Lemma substring_tail_app a : forall n b,
  (n <= String.length a)%nat ->
  String.substring n (String.length (a +:+ b) - n) (a +:+ b)
  = String.substring n (String.length a - n) a +:+ b.
Proof.
  induction a as [|c a IH]; intros n b Hn.
  - cbn [String.length] in Hn. assert (n = 0%nat) as -> by lia.
    change ("" +:+ b) with b. rewrite Nat.sub_0_r. cbn. apply substring_0_all.
  - change (String c a +:+ b) with (String c (a +:+ b)).
    destruct n as [|n].
    + rewrite !Nat.sub_0_r.
      change (String c (a +:+ b)) with (String c a +:+ b).
      now rewrite !substring_0_all.
    + cbn [String.length Nat.sub String.substring].
      apply IH. cbn [String.length] in Hn. lia.
Qed.

Lemma has_char_substring ch s : forall n m,
  has_char ch s = false -> has_char ch (String.substring n m s) = false.
Proof.
  induction s as [|c s IH]; intros n m Hs.
  - now destruct n, m.
  - cbn [has_char] in Hs. apply orb_false_iff in Hs as [Hc Hs].
    destruct n as [|n]; cbn [String.substring].
    + destruct m as [|m]; [reflexivity|].
      cbn [has_char]. now rewrite Hc, IH.
    + now apply IH.
Qed.

(** What [rfind] finds: nothing, or the place after which the character
    does not occur again. *)
Lemma rfind_from_spec ch s : forall i,
  0 <= i ->
  (pystr.rfind_from i ch s = -1 /\ has_char ch s = false)
  \/ (exists a b,
         s = a +:+ String ch b /\ has_char ch b = false
         /\ pystr.rfind_from i ch s = i + Z.of_nat (String.length a)).
Proof.
  induction s as [|c s IH]; intros i Hi; [now left|].
  cbn [pystr.rfind_from has_char].
  destruct (IH (i + 1) ltac:(lia)) as [[Hk Hs]|(a & b & -> & Hb & Hk)]; rewrite Hk.
  - cbn [Z.leb Z.compare]. destruct (Ascii.eqb_spec c ch) as [->|Hc].
    + right. exists "", s. cbn [String.length]. repeat split; [exact Hs | lia].
    + left. now rewrite Hs.
  - replace (0 <=? i + 1 + Z.of_nat (String.length a)) with true
      by (symmetry; apply Z.leb_le; lia).
    right. exists (String c a), b. cbn [String.length]. repeat split; [exact Hb | lia].
Qed.

Lemma rfind_spec s ch :
  (pystr.rfind s ch = -1 /\ has_char ch s = false)
  \/ (exists a b,
         s = a +:+ String ch b /\ has_char ch b = false
         /\ pystr.rfind s ch = Z.of_nat (String.length a)).
Proof. apply (rfind_from_spec ch s 0). lia. Qed.

Lemma rfind_bounds s ch : -1 <= pystr.rfind s ch < pystr.len s.
Proof.
  unfold pystr.len.
  destruct (rfind_spec s ch) as [[-> _]|(a & b & -> & _ & ->)]; [lia|].
  rewrite length_append. cbn [String.length]. lia.
Qed.

Lemma rfind_from_app ch e : 
  has_char ch e = false ->
  forall s i, 0 <= i ->
  pystr.rfind_from i ch (s +:+ e) = pystr.rfind_from i ch s.
Proof.
  intros He. induction s as [|c s IH]; intros i Hi.
  - change ("" +:+ e) with e.
    destruct (rfind_from_spec ch e i Hi) as [[-> _]|(a & b & -> & _ & _)];
      [reflexivity|].
    rewrite has_char_app in He. cbn [has_char] in He.
    rewrite Ascii.eqb_refl, orb_true_r in He. discriminate.
  - change (String c s +:+ e) with (String c (s +:+ e)).
    cbn [pystr.rfind_from]. now rewrite IH by lia.
Qed.

Lemma clamp_inside s i :
  0 <= i <= pystr.len s -> pystr.clamp s i = Z.to_nat i.
Proof.
  intros Hi. unfold pystr.clamp.
  destruct (Z.ltb_spec i 0); [lia|]. now rewrite Z.min_l by lia.
Qed.

Lemma len_append a b : pystr.len (a +:+ b) = pystr.len a + pystr.len b.
Proof. unfold pystr.len. rewrite length_append. lia. Qed.

Lemma len_nonneg s : 0 <= pystr.len s.
Proof. unfold pystr.len. lia. Qed.

Lemma slice_to_app s e i :
  0 <= i <= pystr.len s ->
  pystr.slice_to (s +:+ e) i = pystr.slice_to s i.
Proof.
  intros Hi. unfold pystr.slice_to.
  rewrite !clamp_inside by (rewrite ?len_append; pose proof (len_nonneg e); lia).
  apply substring_0_app. unfold pystr.len in Hi. lia.
Qed.

Lemma slice_from_app s e i :
  0 <= i <= pystr.len s ->
  pystr.slice_from (s +:+ e) i = pystr.slice_from s i +:+ e.
Proof.
  intros Hi. unfold pystr.slice_from.
  rewrite !clamp_inside by (rewrite ?len_append; pose proof (len_nonneg e); lia).
  apply substring_tail_app. unfold pystr.len in Hi. lia.
Qed.

(** ** [dirname], [basename] and [splitext] *)

Lemma dirname_app_no_sep dest e :
  has_char posixpath.sep e = false ->
  posixpath.dirname (dest +:+ e) = posixpath.dirname dest.
Proof.
  intros He. unfold posixpath.dirname, pystr.rfind.
  rewrite (rfind_from_app _ _ He) by lia.
  pose proof (rfind_bounds dest posixpath.sep) as Hb. unfold pystr.rfind in Hb.
  now rewrite slice_to_app by lia.
Qed.

Lemma basename_app_no_sep dest e :
  has_char posixpath.sep e = false ->
  posixpath.basename (dest +:+ e) = posixpath.basename dest +:+ e.
Proof.
  intros He. unfold posixpath.basename, pystr.rfind.
  rewrite (rfind_from_app _ _ He) by lia.
  pose proof (rfind_bounds dest posixpath.sep) as Hb. unfold pystr.rfind in Hb.
  now rewrite slice_from_app by lia.
Qed.

Lemma splitext_scan_cases n p : forall f d,
  snd (posixpath.splitext_scan n p f d) = ""
  \/ snd (posixpath.splitext_scan n p f d) = pystr.slice_from p d.
Proof.
  induction n as [|n IH]; intros f d; cbn [posixpath.splitext_scan]; [now left|].
  destruct (f <? d); [|now left].
  destruct (negb _); [now right | apply IH].
Qed.

(** The extension never holds a separator. *)
Lemma splitext_ext_no_sep p :
  has_char posixpath.sep (snd (posixpath.splitext p)) = false.
Proof.
  unfold posixpath.splitext.
  destruct (Z.ltb_spec (pystr.rfind p posixpath.sep) (pystr.rfind p posixpath.extsep))
    as [Hlt|]; [|reflexivity].
  destruct (splitext_scan_cases
              (S (Z.to_nat (pystr.rfind p posixpath.extsep
                            - (pystr.rfind p posixpath.sep + 1))))
              p (pystr.rfind p posixpath.sep + 1) (pystr.rfind p posixpath.extsep))
    as [->| ->]; [reflexivity|].
  pose proof (rfind_bounds p posixpath.extsep) as Hdot.
  pose proof (rfind_bounds p posixpath.sep) as Hsep.
  unfold pystr.slice_from. rewrite clamp_inside by lia.
  destruct (rfind_spec p posixpath.sep) as [[_ Hno]|(a & b & Hp & Hb & Hk)].
  - now apply has_char_substring.
  - rewrite Hk in Hlt.
    remember (Z.to_nat (pystr.rfind p posixpath.extsep)) as d eqn:Hd.
    remember (String.length p - d)%nat as m eqn:Hm.
    assert (Hge : (String.length a + 1 <= d)%nat) by lia.
    clear Hd Hm Hdot Hsep Hk Hlt. subst p.
    replace d with (String.length (a +:+ String posixpath.sep "")
                    + (d - String.length a - 1))%nat
      by (rewrite length_append; cbn [String.length]; lia).
    replace (a +:+ String posixpath.sep b)
      with ((a +:+ String posixpath.sep "") +:+ b).
    + rewrite substring_skip. now apply has_char_substring.
    + clear. induction a as [|c a IH]; [reflexivity|].
      change (String c a +:+ String posixpath.sep "")
        with (String c (a +:+ String posixpath.sep "")).
      change (String c a +:+ String posixpath.sep b)
        with (String c (a +:+ String posixpath.sep b)).
      change (String c (a +:+ String posixpath.sep "") +:+ b)
        with (String c ((a +:+ String posixpath.sep "") +:+ b)).
      now rewrite IH.
Qed.

Lemma append_empty_r s : s +:+ "" = s.
Proof.
  induction s as [|c s IH]; [reflexivity|].
  change (String c s +:+ "") with (String c (s +:+ "")). now rewrite IH.
Qed.

Lemma startswith_iff s pre :
  pystr.startswith s pre = true <-> exists r, s = pre +:+ r.
Proof.
  unfold pystr.startswith. revert s.
  induction pre as [|c pre IH]; intros s.
  - split; [intros _; now exists s | intros _; now destruct s].
  - destruct s as [|a s]; cbn [String.prefix].
    + split; [discriminate | intros [r Hr]; discriminate].
    + destruct (ascii_dec c a) as [->|Hne].
      * rewrite IH. split; intros [r Hr]; exists r.
        -- now rewrite Hr.
        -- change (String a pre +:+ r) with (String a (pre +:+ r)) in Hr.
           congruence.
      * split; [discriminate|]. intros [r Hr].
        change (String c pre +:+ r) with (String c (pre +:+ r)) in Hr.
        congruence.
Qed.

Lemma append_assoc a b c : (a +:+ b) +:+ c = a +:+ (b +:+ c).
Proof.
  induction a as [|x a IH]; [reflexivity|].
  change (String x a +:+ b) with (String x (a +:+ b)).
  change (String x (a +:+ b) +:+ c) with (String x ((a +:+ b) +:+ c)).
  change (String x a +:+ (b +:+ c)) with (String x (a +:+ (b +:+ c))).
  now rewrite IH.
Qed.

Lemma startswith_refl s : pystr.startswith s s = true.
Proof. apply startswith_iff. exists "". now rewrite append_empty_r. Qed.

Lemma startswith_app a b : pystr.startswith (a +:+ b) a = true.
Proof. apply startswith_iff. now exists b. Qed.

Lemma startswith_trans a b c :
  pystr.startswith b a = true -> pystr.startswith c b = true ->
  pystr.startswith c a = true.
Proof.
  rewrite !startswith_iff. intros [r ->] [r' ->].
  exists (r +:+ r'). apply append_assoc.
Qed.

Lemma confined_extends dest dest' v ev :
  pystr.startswith dest' dest = true ->
  confined dest' v ev -> confined dest v ev.
Proof.
  intros Hext. destruct ev as [args|p|s d f|[] text]; cbn [confined]; auto.
  - intros (d & Hd & Hp). exists d. split; [|exact Hp].
    now apply (startswith_trans dest dest' d).
  - now apply startswith_trans.
Qed.

Lemma join_extends dest name :
  pystr.startswith name "/" = false ->
  pystr.startswith (posixpath.join dest name) dest = true.
Proof.
  intros Hn. unfold posixpath.join.
  change (String posixpath.sep "") with "/". rewrite Hn.
  destruct (_ || _); apply startswith_app.
Qed.

Lemma extended_name_extends d dest target :
  pystr.startswith (extended_name d dest target) dest = true.
Proof.
  unfold extended_name. destruct d; [apply startswith_refl|].
  destruct (String.eqb _ ""); [apply startswith_refl|].
  destruct (pystr.endswith _ _); [apply startswith_refl | apply startswith_app].
Qed.

(** ** More on paths *)

Lemma common_prefix_comm a : forall b,
  posixpath.common_prefix a b = posixpath.common_prefix b a.
Proof.
  induction a as [|x a IH]; intros [|y b]; cbn [posixpath.common_prefix]; try reflexivity.
  rewrite (String.eqb_sym y x).
  destruct (String.eqb_spec x y) as [->|]; [now rewrite IH | reflexivity].
Qed.

Lemma common_prefix_is_prefix a : forall b,
  exists rest, a = (posixpath.common_prefix a b ++ rest)%list.
Proof.
  induction a as [|x a IH]; intros b.
  - now exists [].
  - destruct b as [|y b]; cbn [posixpath.common_prefix].
    + now exists (x :: a).
    + destruct (String.eqb x y).
      * destruct (IH b) as [rest Hrest]. exists rest.
        cbn [app]. now rewrite <- Hrest.
      * now exists (x :: a).
Qed.

Lemma common_prefix_proper a : forall b,
  forallb proper_component a = true ->
  forallb proper_component (posixpath.common_prefix a b) = true.
Proof.
  induction a as [|x a IH]; intros b; [reflexivity|].
  cbn [forallb]. intros [Hx Ha]%andb_true_iff.
  destruct b as [|y b]; cbn [posixpath.common_prefix]; [reflexivity|].
  destruct (String.eqb x y); [|reflexivity].
  cbn [forallb]. now rewrite Hx, IH.
Qed.

Lemma canonical_inj a b :
  forallb proper_component a = true ->
  forallb proper_component b = true ->
  canonical a = canonical b -> a = b.
Proof.
  intros Ha Hb Heq.
  rewrite <- (components_canonical a Ha), <- (components_canonical b Hb).
  now rewrite Heq.
Qed.

Lemma lt_list_asym a : forall b,
  pystr.lt_list a b = true -> pystr.lt_list b a = false.
Proof.
  induction a as [|x a IH]; intros [|y b]; cbn [pystr.lt_list]; try congruence.
  rewrite (String.compare_antisym x y).
  destruct (String.compare y x); cbn [CompOpp]; try congruence. apply IH.
Qed.

Lemma lt_list_connex a : forall b,
  pystr.lt_list a b = false -> pystr.lt_list b a = false -> a = b.
Proof.
  induction a as [|x a IH]; intros [|y b]; cbn [pystr.lt_list]; try congruence.
  rewrite (String.compare_antisym x y).
  destruct (String.compare y x) eqn:Hc; cbn [CompOpp]; try congruence.
  intros Hab Hba. apply String.compare_eq_iff in Hc. subst y.
  now rewrite (IH b Hab Hba).
Qed.

(** [commonpath] of two canonical paths is the canonical path of the
    longest common run of leading components. *)
Lemma commonpath_canonical s d :
  forallb proper_component s = true ->
  forallb proper_component d = true ->
  posixpath.commonpath (canonical s) (canonical d)
  = Some (canonical (posixpath.common_prefix s d)).
Proof.
  intros Hs Hd. unfold posixpath.commonpath.
  rewrite !slice_to_1_canonical, String.eqb_refl. cbn [Bool.eqb negb].
  rewrite (components_canonical _ Hs), (components_canonical _ Hd).
  destruct (pystr.lt_list d s) eqn:Hds, (pystr.lt_list s d) eqn:Hsd.
  - apply lt_list_asym in Hds. congruence.
  - now rewrite (common_prefix_comm d s).
  - reflexivity.
  - now rewrite (lt_list_connex _ _ Hsd Hds).
Qed.

(** The test of [main]: the common path is the source exactly when the
    components of the source are the leading components of the
    destination. *)
Lemma commonpath_is_source_iff s d :
  forallb proper_component s = true ->
  forallb proper_component d = true ->
  posixpath.commonpath (canonical s) (canonical d) = Some (canonical s)
  <-> exists extra, d = (s ++ extra)%list.
Proof.
  intros Hs Hd. rewrite (commonpath_canonical _ _ Hs Hd). split.
  - intros Heq. apply (inj Some) in Heq.
    apply canonical_inj in Heq; [|now apply common_prefix_proper|exact Hs].
    destruct (common_prefix_is_prefix d s) as [rest Hrest].
    rewrite (common_prefix_comm d s), Heq in Hrest. now exists rest.
  - intros [extra ->]. now rewrite common_prefix_app.
Qed.

(** ** [main] *)

Section MainProperties.
Context {E : Type} `{Platform E}.

(** The steps of [main] up to the checks on the real paths. *)
Ltac main_prelude :=
  unfold main;
  unfold bind at 1; unfold query at 1.

Lemma main_off_platform fuel (w : World E) :
  sys_platform (ext w) <> "darwin" ->
  main fuel w
  = (Ok 1, log (EvPrint Stderr ("error: this script only supports macOS" +:+ newline)) w).
Proof.
  intros Hp. apply String.eqb_neq in Hp. main_prelude. now rewrite Hp.
Qed.

Lemma main_parsed fuel (w : World E) args :
  sys_platform (ext w) = "darwin" ->
  argparse_parse_args (ext w) = Ok args ->
  main fuel w =
  (let source := os_path_abspath (source args) (ext w) in
   let destination := os_path_abspath (destination args) (ext w) in
   d <- isdir source ;;
   if negb d then
     print Stderr ("error: source is not a directory: " +:+ source) ;;
     ret 1
   else
     source_real <- realpath source ;;
     destination_real <- realpath destination ;;
     if String.eqb source_real destination_real then
       print Stderr "error: source and destination are the same directory" ;;
       ret 1
     else
       match posixpath.commonpath source_real destination_real with
       | None => raise (ValueError "Can't mix absolute and relative paths")
       | Some common =>
           if String.eqb common source_real then
             print Stderr "error: destination cannot be inside the source directory" ;;
             ret 1
           else
             ensure_dir destination ;;
             copy_directory fuel source destination (verbose args) ;;
             ret 0
       end) w.
Proof.
  intros Hp Ha. main_prelude. rewrite Hp. cbn [String.eqb Ascii.eqb Bool.eqb negb].
  unfold bind at 1. unfold parse_args at 1. rewrite Ha.
  reflexivity.
Qed.

(** Past the four checks [main] makes the destination and copies. *)
Lemma main_proceeds fuel (w : World E) args c :
  sys_platform (ext w) = "darwin" ->
  argparse_parse_args (ext w) = Ok args ->
  let source := os_path_abspath (source args) (ext w) in
  let destination := os_path_abspath (destination args) (ext w) in
  let source_real := os_path_realpath source (ext w) in
  let destination_real := os_path_realpath destination (ext w) in
  os_path_isdir source (ext w) = true ->
  source_real <> destination_real ->
  posixpath.commonpath source_real destination_real = Some c ->
  c <> source_real ->
  main fuel w
  = (ensure_dir destination ;;
     copy_directory fuel source destination (verbose args) ;;
     ret 0) w.
Proof.
  intros Hp Ha src dst sr dr Hd Hne Hc Hcs.
  rewrite (main_parsed fuel w args Hp Ha). cbv zeta. fold src dst.
  unfold bind at 1. unfold isdir at 1, query at 1. rewrite Hd. cbn [negb].
  unfold bind at 1. unfold realpath at 1, query at 1.
  unfold bind at 1. unfold realpath at 1, query at 1.
  fold sr dr. apply String.eqb_neq in Hne. rewrite Hne, Hc.
  apply String.eqb_neq in Hcs. now rewrite Hcs.
Qed.

(** X1.  On a platform other than macOS [main] returns 1 after one line on
    the error stream, before the arguments are looked at (so also when they
    would not parse).  On macOS, a source that is not a directory gives 1
    and one line that names the absolute source path.  Nothing is written
    in either case. *)
Theorem main_early_refusals fuel (w : World E) :
  (sys_platform (ext w) <> "darwin" ->
   main fuel w
   = (Ok 1,
      log (EvPrint Stderr ("error: this script only supports macOS" +:+ newline)) w))
  /\ (forall args,
        sys_platform (ext w) = "darwin" ->
        argparse_parse_args (ext w) = Ok args ->
        let source := os_path_abspath (source args) (ext w) in
        os_path_isdir source (ext w) = false ->
        main fuel w
        = (Ok 1,
           log (EvPrint Stderr
                  (("error: source is not a directory: " +:+ source) +:+ newline)) w)).
Proof.
  split; [apply main_off_platform|].
  intros args Hp Ha src Hd. rewrite (main_parsed fuel w args Hp Ha).
  cbv zeta. fold src. unfold bind at 1. unfold isdir at 1, query at 1.
  rewrite Hd. reflexivity.
Qed.

(** X2.  [main] returns no code but 0 and 1.  A return of 1 is always a
    refusal: the machine is as it was and the run added one line on the
    error stream and nothing else.  A return of 0 means that the platform
    is macOS, the source is a directory, the real paths differ, the
    common path is not the source, and both [ensure_dir] and
    [copy_directory] came back without an exception. *)
Theorem main_exit_codes fuel (w w' : World E) code :
  main fuel w = (Ok code, w') ->
  (code = 1 /\ ext w' = ext w
   /\ exists msg, trace w' = (trace w ++ [EvPrint Stderr msg])%list)
  \/ (code = 0
      /\ sys_platform (ext w) = "darwin"
      /\ exists args,
          argparse_parse_args (ext w) = Ok args
          /\ let source := os_path_abspath (source args) (ext w) in
             let destination := os_path_abspath (destination args) (ext w) in
             let source_real := os_path_realpath source (ext w) in
             let destination_real := os_path_realpath destination (ext w) in
             os_path_isdir source (ext w) = true
             /\ source_real <> destination_real
             /\ posixpath.commonpath source_real destination_real
                <> Some source_real
             /\ exists w1,
                 ensure_dir destination w = (Ok tt, w1)
                 /\ copy_directory fuel source destination (verbose args) w1
                    = (Ok tt, w')).
Proof.
  destruct (String.eqb_spec (sys_platform (ext w)) "darwin") as [Hp|Hp].
  2:{ rewrite (main_off_platform fuel w Hp). intros [= <- <-].
      left. repeat split. eexists. reflexivity. }
  destruct (argparse_parse_args (ext w)) as [args|e] eqn:Ha.
  2:{ unfold main. unfold bind at 1. unfold query at 1. rewrite Hp.
      cbn [String.eqb Ascii.eqb Bool.eqb negb].
      unfold bind at 1. unfold parse_args at 1. rewrite Ha. discriminate. }
  rewrite (main_parsed fuel w args Hp Ha). cbv zeta.
  set (src := os_path_abspath (source args) (ext w)).
  set (dst := os_path_abspath (destination args) (ext w)).
  unfold bind at 1. unfold isdir at 1, query at 1.
  destruct (os_path_isdir src (ext w)) eqn:Hd; cbn [negb].
  2:{ intros [= <- <-]. left. repeat split. eexists. reflexivity. }
  unfold bind at 1. unfold realpath at 1, query at 1.
  unfold bind at 1. unfold realpath at 1, query at 1.
  set (sr := os_path_realpath src (ext w)).
  set (dr := os_path_realpath dst (ext w)).
  destruct (String.eqb_spec sr dr) as [Heq|Hne].
  { intros [= <- <-]. left. repeat split. eexists. reflexivity. }
  destruct (posixpath.commonpath sr dr) as [c|] eqn:Hc; [|discriminate].
  destruct (String.eqb_spec c sr) as [Hcs|Hcs].
  { intros [= <- <-]. left. repeat split. eexists. reflexivity. }
  unfold bind at 1.
  destruct (ensure_dir dst w) as [[[]|e] w1] eqn:He; [|discriminate].
  unfold bind at 1.
  destruct (copy_directory fuel src dst (verbose args) w1) as [[[]|e] w2] eqn:Hcd;
    [|discriminate].
  intros [= <- <-]. right. split; [reflexivity|]. split; [exact Hp|].
  exists args. split; [reflexivity|]. split; [exact Hd|]. split; [exact Hne|].
  split; [|now exists w1].
  change (posixpath.commonpath sr dr <> Some sr).
  rewrite Hc. intros Heq. apply (inj Some) in Heq. contradiction.
Qed.

(** X3.  The nesting check compares whole components: when the components
    of the real source path are not the leading components of the real
    destination path, [main] goes on to make the destination and copy.  A
    destination beside the source whose name merely starts like it
    ([/src2] for [/src]) and a destination above the source are both
    accepted. *)
Theorem main_accepts_unrelated fuel (w : World E) args s d :
  sys_platform (ext w) = "darwin" ->
  argparse_parse_args (ext w) = Ok args ->
  let source := os_path_abspath (source args) (ext w) in
  let destination := os_path_abspath (destination args) (ext w) in
  os_path_isdir source (ext w) = true ->
  forallb proper_component s = true ->
  forallb proper_component d = true ->
  os_path_realpath source (ext w) = canonical s ->
  os_path_realpath destination (ext w) = canonical d ->
  (~ exists extra, d = (s ++ extra)%list) ->
  main fuel w
  = (ensure_dir destination ;;
     copy_directory fuel source destination (verbose args) ;;
     ret 0) w.
Proof.
  intros Hp Ha src dst Hd Hs Hdd Hsr Hdr Hnp. subst src dst.
  apply (main_proceeds fuel w args (canonical (posixpath.common_prefix s d)) Hp Ha Hd).
  - rewrite Hsr, Hdr. intros Heq.
    apply (canonical_inj _ _ Hs Hdd) in Heq. apply Hnp. exists []. 
    now rewrite app_nil_r.
  - rewrite Hsr, Hdr. now apply commonpath_canonical.
  - rewrite Hsr. intros Heq. apply Hnp.
    apply (commonpath_is_source_iff s d Hs Hdd).
    rewrite (commonpath_canonical _ _ Hs Hdd). now rewrite Heq.
Qed.

(** X4.  A destination that exists and is not a directory does not give an
    exit code: once the four checks are passed, [ensure_dir] raises
    [ValueError] out of [main], with nothing written and nothing
    printed. *)
Theorem main_destination_not_directory fuel (w : World E) args s d :
  sys_platform (ext w) = "darwin" ->
  argparse_parse_args (ext w) = Ok args ->
  let source := os_path_abspath (source args) (ext w) in
  let destination := os_path_abspath (destination args) (ext w) in
  os_path_isdir source (ext w) = true ->
  forallb proper_component s = true ->
  forallb proper_component d = true ->
  os_path_realpath source (ext w) = canonical s ->
  os_path_realpath destination (ext w) = canonical d ->
  (~ exists extra, d = (s ++ extra)%list) ->
  os_path_exists destination (ext w) = true ->
  os_path_isdir destination (ext w) = false ->
  main fuel w
  = (Raise (ValueError ("Destination exists and is not a directory: " +:+ destination)), w).
Proof.
  intros Hp Ha src dst Hd Hs Hdd Hsr Hdr Hnp Hex Hnd. subst src dst.
  rewrite (main_proceeds fuel w args (canonical (posixpath.common_prefix s d)) Hp Ha Hd).
  - unfold bind at 1. unfold ensure_dir, bind, exists_, isdir, query.
    now rewrite Hex, Hnd.
  - rewrite Hsr, Hdr. intros Heq.
    apply (canonical_inj _ _ Hs Hdd) in Heq. apply Hnp. exists [].
    now rewrite app_nil_r.
  - rewrite Hsr, Hdr. now apply commonpath_canonical.
  - rewrite Hsr. intros Heq. apply Hnp.
    apply (commonpath_is_source_iff s d Hs Hdd).
    rewrite (commonpath_canonical _ _ Hs Hdd). now rewrite Heq.
Qed.

End MainProperties.

(** ** Chains *)

Section ChainProperties.
Context {E : Type} `{Platform E}.

Lemma resolve_alias_chain_loop_nonempty n :
  forall path (w w' : World E) r,
    path <> "" ->
    resolve_alias_chain_loop n path w = (Ok (Some r), w') ->
    r <> "".
Proof.
  induction n as [|n IH]; intros path w w' r Hpath.
  - intros [= <- _]. exact Hpath.
  - cbn [resolve_alias_chain_loop].
    erewrite bind_ok by apply is_alias_file_eq.
    destruct (negb _); [intros [= <- _]; exact Hpath|].
    erewrite bind_ok by apply resolve_alias_eq.
    match goal with |- context [match ?x with _ => _ end] => destruct x as [q|] end;
      [|discriminate].
    destruct (pystr.truthy q) eqn:Hq; cbn [negb]; [|discriminate].
    destruct (String.eqb q path); [intros [= <- _]; exact Hpath|].
    apply IH. now apply truthy_true_iff.
Qed.

(** X6.  From a path that is not empty [resolve_alias_chain] never returns
    the empty path: its result is [None] or a path that is not empty, so
    the truth test on the result in [copy_item] and [copy_target] tells
    exactly [None] from a path. *)
Theorem resolve_alias_chain_never_empty path max_depth (w w' : World E) r :
  path <> "" ->
  resolve_alias_chain path max_depth w = (Ok (Some r), w') ->
  r <> "".
Proof. apply resolve_alias_chain_loop_nonempty. Qed.

Lemma resolve_alias_chain_loop_counted n :
  forall (p : nat -> string) j k e tr,
    (j <= k)%nat -> (k - j <= n)%nat ->
    (forall i, (j <= i < k)%nat ->
       alias_hop e (p i) (p (S i)) /\ p (S i) <> "" /\ p (S i) <> p i) ->
    not_alias e (p k) ->
    exists evs,
      resolve_alias_chain_loop n (p j) (mkWorld e tr)
      = (Ok (Some (p k)), mkWorld e (tr ++ evs)%list)
      /\ count_resolves evs = (k - j)%nat
      /\ count_probes evs = Nat.min (S (k - j)) n.
Proof.
  induction n as [|n IH]; intros p j k e tr Hjk Hn Hch Hlast.
  - assert (j = k) as -> by lia. exists []. rewrite app_nil_r.
    repeat split. now rewrite Nat.sub_diag.
  - cbn [resolve_alias_chain_loop].
    destruct (Nat.eq_dec j k) as [->|Hne].
    + erewrite bind_ok by (apply is_alias_file_fst, Hlast).
      exists [EvRun (mdls_cmd (p k))]. rewrite Nat.sub_diag.
      repeat split.
    + destruct (Hch j ltac:(lia)) as (Hhop & Hnil & Hdiff).
      destruct (Hhop tr) as [Ha _].
      erewrite bind_ok by (apply is_alias_file_fst, Ha).
      cbn [negb]. unfold log at 1. cbn [ext trace].
      destruct (Hhop (tr ++ [EvRun (mdls_cmd (p j))])%list) as [_ Hr].
      erewrite bind_ok by (apply resolve_alias_fst, Hr).
      cbv beta iota.
      apply truthy_true_iff in Hnil. rewrite Hnil. cbn [negb].
      apply String.eqb_neq in Hdiff. rewrite Hdiff.
      unfold log. cbn [ext trace].
      destruct (IH p (S j) k e
                  ((tr ++ [EvRun (mdls_cmd (p j))]) ++ [EvRun (osascript_cmd (p j))])%list)
        as (evs & Heq & Hres & Hpro); [lia | lia | | exact Hlast |].
      { intros i Hi. apply Hch. lia. }
      exists ([EvRun (mdls_cmd (p j)); EvRun (osascript_cmd (p j))] ++ evs)%list.
      rewrite Heq, <- !app_assoc. split; [reflexivity|].
      rewrite count_probes_app, count_resolves_app.
      destruct (count_probes_hop (p j)) as [-> ->]. lia.
Qed.

(** X7.  A chain of [k] hops, [k] within the bound, that ends on a path
    that is not an alias: [resolve_alias_chain] returns that last path
    after exactly [k] hops and [k + 1] probes (only [k] probes when [k] is
    the bound, the last path is then not probed). *)
Theorem resolve_alias_chain_reaches_target (p : nat -> string) k max_depth
        (w : World E) :
  (k <= Z.to_nat max_depth)%nat ->
  alias_links (ext w) p k ->
  not_alias (ext w) (p k) ->
  exists evs,
    resolve_alias_chain (p 0%nat) max_depth w
    = (Ok (Some (p k)), mkWorld (ext w) (trace w ++ evs)%list)
    /\ count_resolves evs = k
    /\ count_probes evs = Nat.min (S k) (Z.to_nat max_depth).
Proof.
  intros Hk Hlinks Hlast.
  assert (Hch := alias_links_chain _ _ _ Hlinks Hlast).
  destruct (resolve_alias_chain_loop_counted (Z.to_nat max_depth) p 0%nat k
              (ext w) (trace w)) as (evs & Heq & Hres & Hpro);
    [lia | lia | | exact Hlast |].
  { intros i Hi. apply Hch. lia. }
  exists evs. rewrite Nat.sub_0_r in Hres, Hpro. rewrite world_eta in Heq.
  auto.
Qed.

Lemma resolve_alias_chain_selfref a max_depth e tr :
  0 < max_depth ->
  alias_hop e a a -> a <> "" ->
  resolve_alias_chain a max_depth (mkWorld e tr)
  = (Ok (Some a),
     mkWorld e (tr ++ [EvRun (mdls_cmd a); EvRun (osascript_cmd a)])%list).
Proof.
  intros Hpos Hhop Ha. rewrite (resolve_alias_chain_unfold _ _ Hpos).
  destruct (Hhop tr) as [Hp _].
  erewrite bind_ok by (apply is_alias_file_fst, Hp).
  cbn [negb]. unfold log at 1. cbn [ext trace].
  destruct (Hhop (tr ++ [EvRun (mdls_cmd a)])%list) as [_ Hr].
  erewrite bind_ok by (apply resolve_alias_fst, Hr).
  cbv beta iota. apply truthy_true_iff in Ha. rewrite Ha. cbn [negb].
  rewrite String.eqb_refl. unfold ret, log. cbn [ext trace].
  now rewrite <- app_assoc.
Qed.

(** X8.  An alias that points to itself is not reported as unresolved.
    [resolve_alias_chain] stops after one probe and one hop and returns
    the alias; [copy_item] then names the destination after the alias
    itself and [copy_target] probes and resolves it once more: four probes
    and two hops in all, no warning, and the alias is dispatched like a
    resolved target (a file is copied with links followed). *)
Theorem copy_item_self_referential fuel a dest (v : bool) (w : World E) :
  alias_hop (ext w) a a ->
  a <> "" ->
  let name := extended_name (os_path_isdir a (ext w)) dest a in
  let hop := [EvRun (mdls_cmd a); EvRun (osascript_cmd a)] in
  let w' :=
    mkWorld (ext w)
      (trace w ++ EvRun (mdls_cmd a) :: hop
         ++ (if v then [alias_note a a] else [])
         ++ EvRun (mdls_cmd a) :: hop)%list in
  copy_item (S fuel) a dest v w
  = if os_path_isdir a (ext w)
    then copy_directory fuel a name v w'
    else copy_file a name true w'.
Proof.
  intros Hhop Ha name hop w'. destruct w as [e tr]. cbn [ext trace] in *.
  destruct (Hhop tr) as [Hp _].
  assert (Hten : 0 < default_max_depth) by reflexivity.
  rewrite (copy_item_handoff_eq fuel a dest v _ _ _ a
             (is_alias_file_fst _ _ _ Hp)
             (resolve_alias_chain_selfref a _ e _ Hten Hhop Ha) Ha).
  cbn [ext]. fold name.
  set (tr3 := (if v then _ else _) : World E).
  assert (Htr3 : tr3 = mkWorld e ((tr ++ [EvRun (mdls_cmd a)]) ++ hop
                                   ++ (if v then [alias_note a a] else []))%list).
  { subst tr3. unfold log. cbn [ext trace].
    destruct v; cbn [ext trace]; now rewrite ?app_nil_r, <- ?app_assoc. }
  rewrite Htr3.
  destruct (Hhop ((tr ++ [EvRun (mdls_cmd a)]) ++ hop
                  ++ (if v then [alias_note a a] else []))%list) as [Hp' _].
  rewrite (copy_target_alias fuel a name v _ _ _ (Some a)
             (is_alias_file_fst _ _ _ Hp')
             (resolve_alias_chain_selfref a _ e _ Hten Hhop Ha)).
  apply truthy_true_iff in Ha. rewrite Ha. cbn [ext].
  assert (Hw' : w' = mkWorld e
     (((tr ++ [EvRun (mdls_cmd a)]) ++ hop ++ (if v then [alias_note a a] else []))
        ++ [EvRun (mdls_cmd a)] ++ hop)%list).
  { subst w'. f_equal. unfold log. cbn [trace].
    rewrite <- !app_assoc. reflexivity. }
  rewrite Hw'. unfold log. cbn [ext trace]. rewrite <- !app_assoc. reflexivity.
Qed.

End ChainProperties.

(** ** One hop, again *)

Section StripProperties.
Context {E : Type} `{Platform E}.

(** X5.  What [resolve_alias] returns never begins or ends with white
    space: the output of [osascript] is stripped.  A target path without
    white space at its ends, printed with the final newline, comes back as
    it is; a path that ends in a space cannot be returned at all. *)
Theorem resolve_alias_result_trimmed path (w : World E) :
  (forall r, fst (resolve_alias path w) = Ok (Some r) -> trimmed r)
  /\ (forall target,
        trimmed target ->
        subprocess_run (osascript_cmd path) (ext w) (trace w)
        = mkCompletedProcess 0 (target +:+ newline) ->
        fst (resolve_alias path w) = Ok (Some target)).
Proof.
  rewrite resolve_alias_eq. cbn [fst]. split.
  - intros r. cbv zeta.
    destruct (returncode _ =? 0); [|discriminate].
    intros [= <-]. apply strip_trimmed.
  - intros target Ht Hrun. rewrite Hrun. cbn [returncode stdout Z.eqb].
    unfold newline. rewrite strip_app_space by reflexivity.
    now rewrite (trimmed_strip _ Ht).
Qed.

End StripProperties.

(** ** Naming *)

Section NamingProperties.
Context {E : Type} `{Platform E}.

(** X16.  The name given to a copied alias is the destination followed by
    nothing or by the extension of the target, and the extension holds no
    separator: the file stays in the directory of the destination, and
    only its last component grows. *)
Theorem ensure_target_extension_keeps_directory dest target (w : World E) :
  exists name suffix,
    ensure_target_extension dest target w = (Ok name, w)
    /\ name = dest +:+ suffix
    /\ (suffix = "" \/ suffix = snd (posixpath.splitext target))
    /\ has_char posixpath.sep suffix = false
    /\ posixpath.dirname name = posixpath.dirname dest
    /\ posixpath.basename name = posixpath.basename dest +:+ suffix.
Proof.
  rewrite ensure_target_extension_eq.
  assert (Hcases :
    extended_name (os_path_isdir target (ext w)) dest target = dest
    \/ extended_name (os_path_isdir target (ext w)) dest target
       = dest +:+ snd (posixpath.splitext target)).
  { unfold extended_name.
    destruct (os_path_isdir _ _); [now left|].
    destruct (String.eqb _ ""); [now left|].
    destruct (pystr.endswith _ _); [now left | now right]. }
  destruct Hcases as [-> | ->].
  - exists dest, "". rewrite !append_empty_r. repeat split; auto.
  - exists (dest +:+ snd (posixpath.splitext target)), (snd (posixpath.splitext target)).
    pose proof (splitext_ext_no_sep target) as Hno.
    repeat split; auto.
    + now apply dirname_app_no_sep.
    + now apply basename_app_no_sep.
Qed.

End NamingProperties.

(** ** Entries and directories *)

Section CopyProperties.
Context {E : Type} `{Platform E}.

Lemma for_each_app {A} (l1 l2 : list A) (body : A -> M E unit) (w w1 : World E) :
  for_each l1 body w = (Ok tt, w1) ->
  for_each (l1 ++ l2) body w = for_each l2 body w1.
Proof.
  revert w. induction l1 as [|x l1 IH]; intros w.
  - now intros [= <-].
  - cbn [app for_each]. unfold bind.
    destruct (body x w) as [[[]|e] w0]; [apply IH | discriminate].
Qed.

Lemma ensure_dir_conflict path (w : World E) :
  os_path_exists path (ext w) = true ->
  os_path_isdir path (ext w) = false ->
  ensure_dir path w
  = (Raise (ValueError ("Destination exists and is not a directory: " +:+ path)), w).
Proof.
  intros He Hd. unfold ensure_dir, bind, exists_, isdir, query.
  now rewrite He, Hd.
Qed.

(** X14.  A conflict of kinds at the destination stops an entry before
    anything is written: for a directory entry whose destination exists
    and is not a directory, and for a file entry whose destination
    directory exists and is not a directory, [copy_item] raises
    [ValueError] naming the offending path, and the probe is the only
    thing it did. *)
Theorem copy_item_structure_conflict fuel src dest v (w w1 : World E) :
  is_alias_file src w = (Ok false, w1) ->
  (os_path_isdir src (ext w) = true ->
   os_path_islink src (ext w) = false ->
   os_path_exists dest (ext w) = true ->
   os_path_isdir dest (ext w) = false ->
   copy_item (S fuel) src dest v w
   = (Raise (ValueError ("Destination exists and is not a directory: " +:+ dest)),
      w1))
  /\ (os_path_isdir src (ext w) && negb (os_path_islink src (ext w)) = false ->
      posixpath.dirname dest <> "" ->
      os_path_exists (posixpath.dirname dest) (ext w) = true ->
      os_path_isdir (posixpath.dirname dest) (ext w) = false ->
      copy_item (S fuel) src dest v w
      = (Raise (ValueError ("Destination exists and is not a directory: "
                            +:+ posixpath.dirname dest)),
         w1)).
Proof.
  intros Ha.
  assert (He : ext w1 = ext w).
  { rewrite is_alias_file_eq in Ha. now injection Ha as _ <-. }
  rewrite (copy_item_not_alias _ _ _ _ _ _ Ha), He. split.
  - intros Hd Hl Hex Hnd. rewrite Hd, Hl. cbn [negb andb].
    unfold copy_directory, copy_directory_with.
    erewrite bind_raise; [reflexivity|].
    apply ensure_dir_conflict; now rewrite He.
  - intros Hf Hp Hex Hnd. rewrite Hf. unfold copy_file.
    apply truthy_true_iff in Hp. rewrite Hp.
    erewrite bind_raise; [reflexivity|].
    apply ensure_dir_conflict; now rewrite He.
Qed.

(** X15.  [copy_directory] makes the destination directory before it lists
    the source, so a source that cannot be listed leaves the destination
    directory behind.  The entries are copied in the order listed and the
    first one that raises ends the copy: the exception leaves
    [copy_directory] with the world as that entry left it, the entries
    after it untouched. *)
Theorem copy_directory_stops_at_first_error fuel src dest v (w w0 : World E) :
  ensure_dir dest w = (Ok tt, w0) ->
  (forall e, os_scandir src (ext w0) = Raise e ->
             copy_directory fuel src dest v w = (Raise e, w0))
  /\ (forall done name rest w1 w2 e,
        os_scandir src (ext w0) = Ok (done ++ name :: rest)%list ->
        for_each done
          (fun n => copy_item fuel (posixpath.join src n) (posixpath.join dest n) v)
          w0 = (Ok tt, w1) ->
        copy_item fuel (posixpath.join src name) (posixpath.join dest name) v w1
        = (Raise e, w2) ->
        copy_directory fuel src dest v w = (Raise e, w2)).
Proof.
  intros Hens. unfold copy_directory, copy_directory_with.
  erewrite bind_ok by exact Hens. split.
  - intros e Hs. unfold bind, scandir. now rewrite Hs.
  - intros done name rest w1 w2 e Hs Hdone Hfail.
    unfold bind at 1. unfold scandir at 1. rewrite Hs.
    rewrite (for_each_app _ _ _ _ _ Hdone). cbn [for_each].
    now erewrite bind_raise by exact Hfail.
Qed.

(** *** The recursion limit *)

Lemma within_limit_refl {A} (c : M E A) : within_limit c c.
Proof. now intros w r w' Hc _. Qed.

Lemma within_limit_bind {A B} (c1 c2 : M E A) (k1 k2 : A -> M E B) :
  within_limit c1 c2 ->
  (forall a, within_limit (k1 a) (k2 a)) ->
  within_limit (bind c1 k1) (bind c2 k2).
Proof.
  intros Hc Hk w r w'. unfold bind.
  destruct (c1 w) as [[a|e] w1] eqn:H1.
  - rewrite (Hc w (Ok a) w1 H1) by discriminate. apply Hk.
  - intros [= <- <-] Hne.
    assert (He : @Raise A e <> Raise RecursionError) by congruence.
    now rewrite (Hc w (Raise e) w1 H1 He).
Qed.

Lemma within_limit_for_each {A} (l : list A) (b1 b2 : A -> M E unit) :
  (forall x, within_limit (b1 x) (b2 x)) ->
  within_limit (for_each l b1) (for_each l b2).
Proof.
  intros Hb. induction l as [|x l IH]; cbn [for_each].
  - apply within_limit_refl.
  - apply within_limit_bind; [apply Hb | intros _; exact IH].
Qed.

Section LimitStep.

Variables rec1 rec2 : string -> string -> bool -> M E unit.
Hypothesis Hrec : forall s d v, within_limit (rec1 s d v) (rec2 s d v).

Lemma within_limit_copy_directory s d v :
  within_limit (copy_directory_with rec1 s d v) (copy_directory_with rec2 s d v).
Proof.
  unfold copy_directory_with.
  apply within_limit_bind; [apply within_limit_refl|]. intros _.
  apply within_limit_bind; [apply within_limit_refl|]. intros entries.
  apply within_limit_for_each. intros name. apply Hrec.
Qed.

Lemma within_limit_copy_target s d v :
  within_limit (copy_target_with rec1 s d v) (copy_target_with rec2 s d v).
Proof.
  unfold copy_target_with.
  apply within_limit_bind; [apply within_limit_refl|]. intros a.
  apply within_limit_bind; [apply within_limit_refl|]. intros s'.
  apply within_limit_bind; [apply within_limit_refl|]. intros isd.
  destruct isd; [apply within_limit_copy_directory | apply within_limit_refl].
Qed.

Lemma within_limit_copy_item s d v :
  within_limit (copy_item_with rec1 s d v) (copy_item_with rec2 s d v).
Proof.
  unfold copy_item_with.
  apply within_limit_bind; [apply within_limit_refl|]. intros a.
  destruct a.
  - apply within_limit_bind; [apply within_limit_refl|]. intros [t|].
    + destruct (pystr.truthy t).
      * apply within_limit_bind; [apply within_limit_refl|]. intros _.
        apply within_limit_bind; [apply within_limit_refl|]. intros d'.
        apply within_limit_copy_target.
      * apply within_limit_refl.
    + apply within_limit_refl.
  - apply within_limit_bind; [apply within_limit_refl|]. intros isd.
    apply within_limit_bind; [apply within_limit_refl|]. intros isl.
    destruct (isd && negb isl);
      [apply within_limit_copy_directory | apply within_limit_refl].
Qed.

End LimitStep.

Lemma within_limit_succ fuel : forall s d v,
  within_limit (copy_item fuel s d v) (copy_item (S fuel) s d v).
Proof.
  induction fuel as [|fuel IH]; intros s d v.
  - intros w r w'. cbn [copy_item]. unfold raise. intros [= <- <-] Hne.
    congruence.
  - change (within_limit (copy_item_with (copy_item fuel) s d v)
                         (copy_item_with (copy_item (S fuel)) s d v)).
    apply within_limit_copy_item. exact IH.
Qed.

(** X17.  The recursion limit matters only when it is hit: a run of
    [copy_item] that does not end in [RecursionError] gives the same
    outcome and the same world under any larger limit. *)
Theorem copy_item_limit_irrelevant fuel more src dest v (w w' : World E) r :
  copy_item fuel src dest v w = (r, w') ->
  r <> Raise RecursionError ->
  copy_item (fuel + more) src dest v w = (r, w').
Proof.
  intros Hc Hne. induction more as [|more IH].
  - now rewrite Nat.add_0_r.
  - replace (fuel + S more)%nat with (S (fuel + more)) by lia.
    now apply (within_limit_succ (fuel + more) src dest v w r w').
Qed.

End CopyProperties.

(** ** Where a copy writes *)

Section EventProperties.
Context {E : Type} `{Platform E}.

Lemma emits_nothing {A} (c : M E A) P :
  (forall w r w', c w = (r, w') -> w' = w) -> emits c P.
Proof.
  intros Hc w r w' Hrun. rewrite (Hc _ _ _ Hrun).
  exists []. now rewrite app_nil_r.
Qed.

Lemma emits_bind {A B} (c : M E A) (k : A -> M E B) P :
  emits c P ->
  (forall a, (exists w w1, c w = (Ok a, w1)) -> emits (k a) P) ->
  emits (bind c k) P.
Proof.
  intros Hc Hk w r w'. unfold bind.
  destruct (c w) as [[a|e] w1] eqn:Hrun.
  - intros Hka. destruct (Hc _ _ _ Hrun) as (evs1 & Ht1 & Hp1).
    destruct (Hk a (ex_intro _ w (ex_intro _ w1 Hrun)) _ _ _ Hka)
      as (evs2 & Ht2 & Hp2).
    exists (evs1 ++ evs2)%list. rewrite Ht2, Ht1, <- app_assoc.
    split; [reflexivity | now apply Forall_app].
  - intros [= <- <-]. apply (Hc _ _ _ Hrun).
Qed.

Lemma emits_weaken {A} (c : M E A) (P Q : event -> Prop) :
  (forall ev, P ev -> Q ev) -> emits c P -> emits c Q.
Proof.
  intros Hpq Hc w r w' Hrun. destruct (Hc _ _ _ Hrun) as (evs & Ht & Hp).
  exists evs. split; [exact Ht|]. eapply Forall_impl; eauto.
Qed.

Lemma emits_ret {A} (a : A) P : emits (ret a : M E A) P.
Proof. apply emits_nothing. now intros w r w' [= _ <-]. Qed.

Lemma emits_raise {A} e P : emits (raise e : M E A) P.
Proof. apply emits_nothing. now intros w r w' [= _ <-]. Qed.

Lemma emits_query {A} (f : E -> A) P : emits (query f) P.
Proof. apply emits_nothing. now intros w r w' [= _ <-]. Qed.

Lemma emits_one {A} (c : M E A) ev P :
  (forall w r w', c w = (r, w') -> trace w' = (trace w ++ [ev])%list) ->
  P ev -> emits c P.
Proof.
  intros Hc Hev w r w' Hrun. exists [ev]. split; [eauto|].
  now constructor.
Qed.

Lemma emits_for_each {A} (l : list A) (body : A -> M E unit) P :
  (forall x, In x l -> emits (body x) P) -> emits (for_each l body) P.
Proof.
  induction l as [|x l IH]; intros Hb; cbn [for_each].
  - apply emits_ret.
  - apply emits_bind; [apply Hb; now left|]. intros _ _.
    apply IH. intros y Hy. apply Hb. now right.
Qed.

Section Runs.

Variable P : event -> Prop.
Hypothesis Prun : forall args, P (EvRun args).

Lemma emits_run_cmd args : emits (run_cmd args) P.
Proof.
  apply (emits_one _ (EvRun args)); [|apply Prun].
  now intros w r w' [= _ <-].
Qed.

Lemma emits_is_alias_file path : emits (is_alias_file path) P.
Proof.
  unfold is_alias_file. apply emits_bind; [apply emits_run_cmd|].
  intros r _. destruct (negb _); apply emits_ret.
Qed.

Lemma emits_resolve_alias path : emits (resolve_alias path) P.
Proof.
  unfold resolve_alias, run_osascript. apply emits_bind; [apply emits_run_cmd|].
  intros r _. destruct (negb _); apply emits_ret.
Qed.

Lemma emits_resolve_alias_chain path max_depth :
  emits (resolve_alias_chain path max_depth) P.
Proof.
  unfold resolve_alias_chain. generalize (Z.to_nat max_depth) as n.
  intros n. revert path. induction n as [|n IH]; intros path.
  - apply emits_ret.
  - cbn [resolve_alias_chain_loop].
    apply emits_bind; [apply emits_is_alias_file|]. intros a _.
    destruct (negb a); [apply emits_ret|].
    apply emits_bind; [apply emits_resolve_alias|]. intros [q|] _;
      [|apply emits_ret].
    destruct (negb _); [apply emits_ret|].
    destruct (String.eqb q path); [apply emits_ret | apply IH].
Qed.

Lemma emits_ensure_dir path : P (EvMakedirs path) -> emits (ensure_dir path) P.
Proof.
  intros Hp. unfold ensure_dir, exists_, isdir.
  apply emits_bind; [apply emits_query|]. intros e _. destruct e.
  - apply emits_bind; [apply emits_query|]. intros d _.
    destruct (negb d); [apply emits_raise | apply emits_ret].
  - apply (emits_one _ (EvMakedirs path)); [|exact Hp].
    intros w r w'. unfold makedirs.
    destruct (os_makedirs path (ext w)). now intros [= _ <-].
Qed.

Lemma emits_copy_file src dst f :
  P (EvMakedirs (posixpath.dirname dst)) -> P (EvCopy2 src dst f) ->
  emits (copy_file src dst f) P.
Proof.
  intros Hm Hc. unfold copy_file. apply emits_bind.
  - destruct (pystr.truthy _); [now apply emits_ensure_dir | apply emits_ret].
  - intros _ _. apply (emits_one _ (EvCopy2 src dst f)); [|exact Hc].
    intros w r w'. unfold copy2.
    destruct (shutil_copy2 src dst f (ext w)). now intros [= _ <-].
Qed.

End Runs.

Section Confinement.

Hypothesis Hnames : scandir_names_plain.

Lemma confined_run dest v args : confined dest v (EvRun args).
Proof. exact I. Qed.

Lemma confined_makedirs dest v : confined dest v (EvMakedirs dest).
Proof. exists dest. split; [apply startswith_refl | now left]. Qed.

Lemma confined_parent dest v : confined dest v (EvMakedirs (posixpath.dirname dest)).
Proof. exists dest. split; [apply startswith_refl | now right]. Qed.

Lemma confined_copy2 dest v src f : confined dest v (EvCopy2 src dest f).
Proof. apply startswith_refl. Qed.

Section ConfinedStep.

Variable rec : string -> string -> bool -> M E unit.
Hypothesis Hrec : forall s d v, emits (rec s d v) (confined d v).

Lemma emits_copy_directory_with s d v :
  emits (copy_directory_with rec s d v) (confined d v).
Proof.
  unfold copy_directory_with.
  apply emits_bind;
    [apply emits_ensure_dir, confined_makedirs|].
  intros _ _. apply emits_bind.
  { apply emits_nothing. unfold scandir. now intros w r w' [= _ <-]. }
  intros names (w & w1 & Hscan). apply emits_for_each. intros n Hn.
  assert (Hplain : pystr.startswith n "/" = false).
  { unfold scandir in Hscan. injection Hscan as Hscan _.
    apply Hnames in Hscan. rewrite List.Forall_forall in Hscan. now apply Hscan. }
  eapply emits_weaken; [|apply Hrec].
  intros ev. apply confined_extends. now apply join_extends.
Qed.

Lemma emits_copy_target_with s d v :
  emits (copy_target_with rec s d v) (confined d v).
Proof.
  unfold copy_target_with.
  apply emits_bind; [apply emits_is_alias_file, confined_run|]. intros a _.
  apply emits_bind.
  { destruct a; [|apply emits_ret].
    apply emits_bind; [apply emits_resolve_alias_chain, confined_run|].
    intros [r|] _; [destruct (pystr.truthy r)|]; apply emits_ret. }
  intros s' _. unfold isdir. apply emits_bind; [apply emits_query|].
  intros isd _. destruct isd.
  - apply emits_copy_directory_with.
  - apply emits_copy_file;
      [apply confined_parent | apply confined_copy2].
Qed.

Lemma emits_copy_item_with s d v :
  emits (copy_item_with rec s d v) (confined d v).
Proof.
  unfold copy_item_with.
  apply emits_bind; [apply emits_is_alias_file, confined_run|]. intros a _.
  assert (Hfallback : emits
    (print Stderr ("warning: failed to resolve alias: " +:+ s) ;;
     copy_file s d false) (confined d v)).
  { apply emits_bind.
    - apply (emits_one _ (warning s)); [|now exists s].
      now intros w r w' [= _ <-].
    - intros _ _. apply emits_copy_file;
        [apply confined_parent | apply confined_copy2]. }
  destruct a.
  - apply emits_bind; [apply emits_resolve_alias_chain, confined_run|].
    intros [t|] _; [|exact Hfallback].
    destruct (pystr.truthy t); [|exact Hfallback].
    apply emits_bind.
    { destruct v; [|apply emits_ret].
      apply (emits_one _ (alias_note s t)); [|reflexivity].
      now intros w r w' [= _ <-]. }
    intros _ _. apply emits_bind.
    { apply emits_nothing. intros w r w'.
      rewrite ensure_target_extension_eq. now intros [= _ <-]. }
    intros d' (w & w1 & Hname). rewrite ensure_target_extension_eq in Hname.
    injection Hname as <- _.
    eapply emits_weaken; [|apply emits_copy_target_with].
    intros ev. apply confined_extends, extended_name_extends.
  - unfold isdir, islink.
    apply emits_bind; [apply emits_query|]. intros isd _.
    apply emits_bind; [apply emits_query|]. intros isl _.
    destruct (isd && negb isl).
    + apply emits_copy_directory_with.
    + apply emits_copy_file;
        [apply confined_parent | apply confined_copy2].
Qed.

End ConfinedStep.

Lemma emits_copy_item fuel : forall s d v,
  emits (copy_item fuel s d v) (confined d v).
Proof.
  induction fuel as [|fuel IH]; intros s d v; cbn [copy_item].
  - apply emits_raise.
  - apply emits_copy_item_with. exact IH.
Qed.

End Confinement.

(** X18.  Where a copy writes: as long as [os.scandir] yields names that do
    not start with a separator, every [shutil.copy2] of [copy_item] goes to
    a path that starts with the destination, every [os.makedirs] is for
    such a path or for the directory of one, the standard output is used
    in verbose mode only, and the error stream only for the warning. *)
Theorem copy_item_writes_confined fuel src dest v (w w' : World E) r :
  scandir_names_plain ->
  copy_item fuel src dest v w = (r, w') ->
  exists evs,
    trace w' = (trace w ++ evs)%list
    /\ Forall (confined dest v) evs.
Proof. intros Hnames. apply (emits_copy_item Hnames fuel src dest v). Qed.

End EventProperties.

(** ** More on the in-memory machine *)

(** X10.  An entry that is a regular file and not an alias: after one
    probe, [copy_item] copies it with links not followed; the destination
    path is used as given and holds the bytes of the source, and nothing
    else changes.  The destination can take a new entry
    ([memfs.writable]): it is the one spelling of a place that is free. *)
Theorem copy_item_regular_file fuel (m : memfs.machine) tr src dest v data :
  not_alias m src ->
  memfs.lstat (memfs.files m) src = Some (memfs.File data) ->
  memfs.writable (memfs.files m) dest ->
  copy_item (S fuel) src dest v (mkWorld m tr)
  = (Ok tt,
     mkWorld (memfs.with_files m (<[dest := memfs.File data]> (memfs.files m)))
             (tr ++ [EvRun (mdls_cmd src); EvCopy2 src dest false])%list).
Proof.
  intros Hna Hsrc Hw.
  rewrite (copy_item_not_alias fuel src dest v _ _
             (is_alias_file_fst _ _ _ (Hna tr))).
  unfold log. cbn [ext trace os_path_isdir memfs.platform].
  assert (Hnd : memfs.isdir_b (memfs.files m) src = false).
  { unfold memfs.isdir_b. rewrite stat_not_link by now rewrite Hsrc.
    now rewrite Hsrc. }
  rewrite Hnd. cbn [andb].
  rewrite (copy_file_data m _ src dest false src data); auto.
  - now rewrite <- app_assoc.
  - apply follow_not_link. now rewrite Hsrc.
Qed.


(** ** Entries the probe fails on *)

Section ProbeProperties.
Context {E : Type} `{Platform E}.

(** X19.  A failed content-type query is not an error: when [mdls] exits
    with a status other than zero the entry counts as not an alias, and
    [copy_item] goes on as for a plain entry (a directory is descended, a
    file is copied with links not followed) with no call of [osascript]
    and no warning. *)
Theorem copy_item_probe_failure fuel src dest v (w : World E) :
  returncode (subprocess_run (mdls_cmd src) (ext w) (trace w)) <> 0 ->
  is_alias_file src w = (Ok false, log (EvRun (mdls_cmd src)) w)
  /\ copy_item (S fuel) src dest v w
     = (if os_path_isdir src (ext w) && negb (os_path_islink src (ext w))
        then copy_directory fuel src dest v
        else copy_file src dest false) (log (EvRun (mdls_cmd src)) w).
Proof.
  intros Hrc.
  assert (Ha : is_alias_file src w = (Ok false, log (EvRun (mdls_cmd src)) w)).
  { rewrite is_alias_file_eq. cbv zeta.
    apply Z.eqb_neq in Hrc. now rewrite Hrc. }
  split; [exact Ha|].
  rewrite (copy_item_not_alias _ _ _ _ _ _ Ha). cbn [ext log].
  now destruct (_ && _).
Qed.

End ProbeProperties.

(** ** The names the in-memory machine lists *)

Lemma basename_no_sep p : has_char posixpath.sep (posixpath.basename p) = false.
Proof.
  unfold posixpath.basename, pystr.slice_from.
  pose proof (rfind_bounds p posixpath.sep) as Hb.
  rewrite clamp_inside by lia.
  destruct (rfind_spec p posixpath.sep) as [[_ Hno]|(a & b & Hp & Hnb & Hk)].
  - now apply has_char_substring.
  - rewrite Hk.
    replace (Z.to_nat (Z.of_nat (String.length a) + 1))
      with (String.length (a +:+ String posixpath.sep "") + 0)%nat
      by (rewrite length_append; cbn [String.length]; lia).
    remember (String.length p
              - (String.length (a +:+ String posixpath.sep "") + 0))%nat as n.
    replace p with ((a +:+ String posixpath.sep "") +:+ b)
      by (rewrite Hp, append_assoc; reflexivity).
    rewrite substring_skip. now apply has_char_substring.
Qed.

Lemma no_sep_plain n :
  has_char posixpath.sep n = false -> pystr.startswith n "/" = false.
Proof.
  destruct n as [|c n]; [reflexivity|]. cbn [has_char].
  intros [Hc _]%orb_false_iff. unfold pystr.startswith. cbn [String.prefix].
  destruct (ascii_dec "/" c) as [<-|]; [discriminate | reflexivity].
Qed.

Lemma memfs_scandir_names_plain : @scandir_names_plain memfs.machine _.
Proof.
  intros path m names. cbn [os_scandir memfs.platform]. unfold memfs.scandir.
  destruct (memfs.follow _ _ path) as [q|]; [|discriminate].
  destruct (memfs.lstat _ q) as [[]|]; try discriminate.
  intros [= <-]. unfold memfs.children.
  induction (map_to_list (memfs.files m)) as [|[k nd] l IH]; [constructor|].
  cbn [omap list_omap].
  destruct (_ && _); [|exact IH].
  constructor; [|exact IH]. apply no_sep_plain, basename_no_sep.
Qed.

(** ** Further runs on the sample machines *)

(** Not on a Mac: 1, though the arguments would not even parse. *)
Lemma main_early_refusals_samples :
  main 5 (memfs.boot samples.linux)
  = (Ok 1,
     log (EvPrint Stderr ("error: this script only supports macOS" +:+ newline))
         (memfs.boot samples.linux))
  /\ main 5 (memfs.boot samples.no_source)
     = (Ok 1,
        log (EvPrint Stderr
               (("error: source is not a directory: " +:+ "/nowhere") +:+ newline))
            (memfs.boot samples.no_source)).
Proof.
  split.
  - destruct (main_early_refusals 5 (memfs.boot samples.linux)) as [Hoff _].
    apply Hoff. discriminate.
  - destruct (main_early_refusals 5 (memfs.boot samples.no_source)) as [_ Hsrc].
    apply (Hsrc (mkNamespace "/nowhere" "/dst" false)); reflexivity.
Defined.

Lemma main_exit_codes_tree :
  let w := memfs.boot samples.tree in
  let w' := snd (main 5 w) in
  (0 = 1 /\ ext w' = ext w
   /\ exists msg, trace w' = (trace w ++ [EvPrint Stderr msg])%list)
  \/ (0 = 0
      /\ sys_platform (ext w) = "darwin"
      /\ exists args,
          argparse_parse_args (ext w) = Ok args
          /\ let source := os_path_abspath (source args) (ext w) in
             let destination := os_path_abspath (destination args) (ext w) in
             let source_real := os_path_realpath source (ext w) in
             let destination_real := os_path_realpath destination (ext w) in
             os_path_isdir source (ext w) = true
             /\ source_real <> destination_real
             /\ posixpath.commonpath source_real destination_real
                <> Some source_real
             /\ exists w1,
                 ensure_dir destination w = (Ok tt, w1)
                 /\ copy_directory 5 source destination (verbose args) w1
                    = (Ok tt, w')).
Proof.
  intros w w'. apply (main_exit_codes 5 w w' 0). run.
Defined.

Lemma main_accepts_unrelated_sibling :
  let w := memfs.boot samples.sibling_dest in
  main 5 w
  = (ensure_dir "/src2" ;; copy_directory 5 "/src" "/src2" false ;; ret 0) w.
Proof.
  intros w.
  assert (Hargs : argparse_parse_args (ext w)
                  = Ok (mkNamespace "/src" "/src2" false)) by reflexivity.
  assert (Hmac : sys_platform (ext w) = "darwin") by reflexivity.
  apply (main_accepts_unrelated 5 w _ ["src"] ["src2"] Hmac Hargs);
    try (vm_compute; reflexivity).
  intros [extra Hextra]. discriminate.
Defined.

Lemma main_destination_not_directory_sample :
  let w := memfs.boot samples.dest_is_file in
  main 5 w
  = (Raise (ValueError ("Destination exists and is not a directory: "
                        +:+ "/Targets/report.pdf")), w).
Proof.
  intros w.
  assert (Hargs : argparse_parse_args (ext w)
                  = Ok (mkNamespace "/src" "/Targets/report.pdf" false))
    by reflexivity.
  assert (Hmac : sys_platform (ext w) = "darwin") by reflexivity.
  apply (main_destination_not_directory 5 w _ ["src"] ["Targets"; "report.pdf"]
           Hmac Hargs);
    try (vm_compute; reflexivity).
  intros [extra Hextra]. discriminate.
Defined.

Lemma resolve_alias_result_trimmed_doc :
  fst (resolve_alias "/src/Doc.alias" (memfs.boot samples.doc))
  = Ok (Some "/Targets/report.pdf").
Proof.
  destruct (resolve_alias_result_trimmed "/src/Doc.alias" (memfs.boot samples.doc))
    as [_ Hback].
  apply Hback; [split; reflexivity | vm_compute; reflexivity].
Defined.

(** The space at the end of the name of the target is lost. *)
Example resolve_alias_trailing_space :
  fst (resolve_alias "/src/Doc.alias" (memfs.boot samples.trailing_space))
  = Ok (Some "/Targets/notes").
Proof. vm_compute. reflexivity. Qed.

Lemma resolve_alias_chain_never_empty_doc :
  let w := memfs.boot samples.doc in
  let w' := snd (resolve_alias_chain "/src/Doc.alias" 10 w) in
  resolve_alias_chain "/src/Doc.alias" 10 w = (Ok (Some "/Targets/report.pdf"), w')
  /\ "/Targets/report.pdf" <> "".
Proof.
  intros w w'.
  assert (Hrun : resolve_alias_chain "/src/Doc.alias" 10 w
                 = (Ok (Some "/Targets/report.pdf"), w'))
    by run.
  split; [exact Hrun|].
  apply (resolve_alias_chain_never_empty "/src/Doc.alias" 10 w w' _
           ltac:(discriminate) Hrun).
Defined.

Lemma resolve_alias_chain_reaches_target_long :
  exists evs,
    resolve_alias_chain "/c/a00" 20 (memfs.boot samples.long_chain)
    = (Ok (Some "/T/final.txt"), mkWorld samples.long_chain evs)
    /\ count_resolves evs = 12%nat
    /\ count_probes evs = 13%nat.
Proof.
  apply (resolve_alias_chain_reaches_target samples.long_path 12 20
           (memfs.boot samples.long_chain)).
  - vm_compute. lia.
  - intros i Hi.
    do 12 (destruct i as [|i];
           [split; [intros tr; split; vm_compute; reflexivity | discriminate]|]).
    lia.
  - intros tr. vm_compute. reflexivity.
Defined.

Lemma copy_item_self_referential_sample :
  let a := "/src/Loop" in
  let w := memfs.boot samples.selfref in
  let hop := [EvRun (mdls_cmd a); EvRun (osascript_cmd a)] in
  copy_item 1 a "/dst/Loop" false w
  = copy_file a "/dst/Loop" true
      (mkWorld samples.selfref
         (EvRun (mdls_cmd a) :: hop ++ EvRun (mdls_cmd a) :: hop)%list).
Proof.
  intros a w hop.
  assert (Hhop : alias_hop (ext w) a a)
    by (intros tr; split; vm_compute; reflexivity).
  assert (Ha : a <> "") by discriminate.
  rewrite (copy_item_self_referential 0 a "/dst/Loop" false w Hhop Ha).
  assert (Hd : os_path_isdir a (ext w) = false) by (vm_compute; reflexivity).
  rewrite Hd.
  replace (extended_name false "/dst/Loop" a) with "/dst/Loop"
    by (vm_compute; reflexivity).
  reflexivity.
Defined.


Lemma copy_item_regular_file_sample :
  copy_item 1 "/Targets/report.pdf" "/dst/report.pdf" false
    (memfs.boot samples.doc)
  = (Ok tt,
     mkWorld (memfs.with_files samples.doc
                (<["/dst/report.pdf" := memfs.File "%PDF-1.7"]>
                   (memfs.files samples.doc)))
             [EvRun (mdls_cmd "/Targets/report.pdf");
              EvCopy2 "/Targets/report.pdf" "/dst/report.pdf" false]).
Proof.
  apply (copy_item_regular_file 0 samples.doc [] "/Targets/report.pdf"
           "/dst/report.pdf" false "%PDF-1.7").
  - intros tr. vm_compute. reflexivity.
  - vm_compute. reflexivity.
  - vm_compute. repeat split.
Defined.

Lemma copy_item_link_entry_sample :
  copy_item 1 "/src/link" "/dst/link" false (memfs.boot samples.linked)
  = (Ok tt,
     mkWorld (memfs.with_files samples.linked
                (<["/dst/link" := memfs.Symlink "/src/data.txt"]>
                   (memfs.files samples.linked)))
             [EvRun (mdls_cmd "/src/link"); EvCopy2 "/src/link" "/dst/link" false]).
Proof.
  apply (copy_item_link_entry 0 samples.linked [] "/src/link" "/dst/link" false
           "/src/data.txt").
  - intros tr. vm_compute. reflexivity.
  - vm_compute. reflexivity.
  - vm_compute. repeat split.
Defined.

Lemma copy_target_through_link_sample :
  copy_target 0 "/src/link" "/dst/Pointer" false (memfs.boot samples.linked)
  = (Ok tt,
     mkWorld (memfs.with_files samples.linked
                (<["/dst/Pointer" := memfs.File "payload"]>
                   (memfs.files samples.linked)))
             [EvRun (mdls_cmd "/src/link");
              EvCopy2 "/src/link" "/dst/Pointer" true]).
Proof.
  apply (copy_target_through_link 0 samples.linked [] "/src/link" "/dst/Pointer"
           false "/src/data.txt" "payload").
  - intros tr. vm_compute. reflexivity.
  - vm_compute. reflexivity.
  - vm_compute. reflexivity.
  - vm_compute. repeat split.
Defined.

Lemma copy_item_unresolved_alias_bytes_sample :
  let src := "/src/Doc.alias" in
  let w := memfs.boot samples.unmounted in
  let w1 := snd (is_alias_file src w) in
  let w2 := snd (resolve_alias_chain src default_max_depth w1) in
  copy_item 1 src "/dst/Doc.alias" false w
  = (Ok tt,
     mkWorld (memfs.with_files samples.unmounted
                (<["/dst/Doc.alias" := memfs.File "alias-record"]>
                   (memfs.files samples.unmounted)))
             (trace w2 ++ [warning src; EvCopy2 src "/dst/Doc.alias" false])%list).
Proof.
  intros src w w1 w2.
  apply (copy_item_unresolved_alias_bytes 0 samples.unmounted [] src
           "/dst/Doc.alias" false w1 w2 "alias-record").
  - run.
  - run.
  - vm_compute. reflexivity.
  - vm_compute. repeat split.
Defined.

Lemma copy_item_structure_conflict_sample :
  let w := memfs.boot samples.tree in
  copy_item 1 "/src/sub" "/Targets/report.pdf" false w
  = (Raise (ValueError ("Destination exists and is not a directory: "
                        +:+ "/Targets/report.pdf")),
     snd (is_alias_file "/src/sub" w))
  /\ copy_item 1 "/src/sub/a.txt" "/Targets/report.pdf/a.txt" false w
     = (Raise (ValueError ("Destination exists and is not a directory: "
                           +:+ posixpath.dirname "/Targets/report.pdf/a.txt")),
        snd (is_alias_file "/src/sub/a.txt" w)).
Proof.
  intros w. split.
  - assert (Ha : is_alias_file "/src/sub" w
                 = (Ok false, snd (is_alias_file "/src/sub" w)))
      by run.
    destruct (copy_item_structure_conflict 0 "/src/sub" "/Targets/report.pdf"
                false w _ Ha) as [Hdir _].
    apply Hdir; vm_compute; reflexivity.
  - assert (Ha : is_alias_file "/src/sub/a.txt" w
                 = (Ok false, snd (is_alias_file "/src/sub/a.txt" w)))
      by run.
    destruct (copy_item_structure_conflict 0 "/src/sub/a.txt"
                "/Targets/report.pdf/a.txt" false w _ Ha) as [_ Hfile].
    apply Hfile; try (vm_compute; reflexivity).
    vm_compute. discriminate.
Defined.

Lemma copy_directory_stops_at_first_error_blocked :
  let w := memfs.boot samples.blocked in
  let body := fun n => copy_item 4 (posixpath.join "/src" n)
                                 (posixpath.join "/dst" n) false in
  let w1 := snd (for_each ["sub"] body w) in
  let w2 := snd (body "Folder" w1) in
  copy_directory 4 "/src" "/dst" false w
  = (Raise (ValueError "Destination exists and is not a directory: /dst/Folder"),
     w2)
  /\ memfs.files (ext w2) !! "/dst/ln" = None
  /\ memfs.files (ext w2) !! "/dst/Doc.PDF" = None
  /\ memfs.files (ext w2) !! "/dst/sub/a.txt" = Some (memfs.File "A").
Proof.
  intros w body w1 w2. split; [|vm_compute; repeat split].
  assert (Hens : ensure_dir "/dst" w = (Ok tt, w))
    by (apply ensure_dir_present; vm_compute; reflexivity).
  destruct (copy_directory_stops_at_first_error 4 "/src" "/dst" false w w Hens)
    as [_ Hstop].
  apply (Hstop ["sub"] "Folder" ["ln"; "Doc.PDF"] w1 w2);
    [vm_compute; reflexivity | run | run].
Defined.

Lemma copy_item_limit_irrelevant_tree :
  copy_item (3 + 7) "/src" "/dst" false (memfs.boot samples.tree)
  = copy_item 3 "/src" "/dst" false (memfs.boot samples.tree).
Proof.
  set (p := copy_item 3 "/src" "/dst" false (memfs.boot samples.tree)).
  rewrite (surjective_pairing p).
  apply (copy_item_limit_irrelevant 3 7).
  - apply surjective_pairing.
  - vm_compute. discriminate.
Defined.

Lemma copy_item_writes_confined_tree :
  let w := memfs.boot samples.tree in
  exists evs,
    trace (snd (copy_item 5 "/src" "/dst" false w)) = (trace w ++ evs)%list
    /\ Forall (confined "/dst" false) evs.
Proof.
  intros w.
  apply (copy_item_writes_confined 5 "/src" "/dst" false w
           (snd (copy_item 5 "/src" "/dst" false w))
           (fst (copy_item 5 "/src" "/dst" false w))
           memfs_scandir_names_plain).
  now destruct (copy_item 5 "/src" "/dst" false w).
Defined.

Lemma copy_item_probe_failure_sample :
  let w := memfs.boot samples.doc in
  is_alias_file "/nowhere" w = (Ok false, log (EvRun (mdls_cmd "/nowhere")) w)
  /\ copy_item 1 "/nowhere" "/dst/x" false w
     = (if os_path_isdir "/nowhere" (ext w)
           && negb (os_path_islink "/nowhere" (ext w))
        then copy_directory 0 "/nowhere" "/dst/x" false
        else copy_file "/nowhere" "/dst/x" false)
         (log (EvRun (mdls_cmd "/nowhere")) w).
Proof.
  intros w. apply (copy_item_probe_failure 0 "/nowhere" "/dst/x" false w).
  vm_compute. discriminate.
Defined.
